(** * Split synchronizer: storage, recorders and endpoint telemetry

    A shallow embedding of the Go sources of the split synchronizer and
    the properties its specification states about them.

    Conventions.  Go's [int64] (and [int] on the 64-bit targets the
    service is built for) is [Z]; where the code can leave the 64-bit
    range the wrap-around is written out with [wrap64].  Go strings are
    [string].  A Go [map] is a [gmap]; where the code ranges over a map
    the order of the iteration is the order of [map_to_list].  A Go
    [error] is the inductive [error], with [None] for [nil]. *)

From Stdlib Require Import ZArith Lia Ascii String.
From stdpp Require Import gmap strings list fin_maps sorting.

Local Open Scope Z_scope.

(** ** Errors *)

(** The error values the sources create with [errors.New] and wrap with
    [fmt.Errorf("...: %w", err)]. *)
Inductive error : Type :=
  | ErrSummaryNotCached
  | ErrorBucketNotFound
  | ErrStorageNotInitialized
  | ErrFlushBusy
  | HTTPError (code : Z)
  | ErrOther (msg : string)
  | Wrapped (msg : string) (inner : error).

#[global] Instance error_eq_dec : EqDecision error.
Proof. solve_decision. Defined.

(** [errors.Is]: the target is the error itself or one it wraps. *)
Fixpoint errors_Is (err target : error) : bool :=
  bool_decide (err = target) ||
  match err with
  | Wrapped _ inner => errors_Is inner target
  | _ => false
  end.

(** Two's complement reduction to the [int64] range. *)
Definition wrap64 (z : Z) : Z := (z + 2 ^ 63) mod 2 ^ 64 - 2 ^ 63.

Definition in_int64 (z : Z) : Prop := - 2 ^ 63 <= z < 2 ^ 63.

(** ** The database-backed handlers ([proxy/controllers.go]) *)

Module LegacyProxy.

(** [collections.SplitChangesItem]: a stored split with its raw JSON. *)
Record SplitChangesItem : Type := {
  ChangeNumber : Z;
  Name : string;
  Status : string;
  JSON : string
}.

(** One key delta of a stored segment. *)
Record SegmentKey : Type := {
  KeyName : string;
  Removed : bool;
  KeyChangeNumber : Z
}.

(** [collections.SegmentChangesItem]. *)
Record SegmentChangesItem : Type := {
  SegmentName : string;
  Keys : list SegmentKey
}.

(** The body of the [for _, split := range items] loop of
    [fetchSplitsFromDB]; the accumulator is [(splits, till)]. *)
Definition splitsStep (since : Z) (acc : list string * Z)
    (split : SplitChangesItem) : list string * Z :=
  let '(splits, till) := acc in
  if String.eqb (Status split) "ACTIVE" && (since <? ChangeNumber split) then
    (splits ++ [JSON split],
     if till <? ChangeNumber split then ChangeNumber split else till)
  else (splits, till).

(** [fetchSplitsFromDB]; [fetched] is what [splitCollection.FetchAll()]
    returned. *)
Definition fetchSplitsFromDB (since : Z)
    (fetched : error + list SplitChangesItem)
    : list string * Z * option error :=
  let till := since in
  let splits := [] in
  match fetched with
  | inl err => (splits, till, Some err)
  | inr items =>
      let '(splits, till) := fold_left (splitsStep since) items (splits, till) in
      (splits, till, None)
  end.


(** The splits the loop selects. *)
Definition selected (since : Z) (items : list SplitChangesItem)
    : list SplitChangesItem :=
  List.filter
    (fun split => String.eqb (Status split) "ACTIVE" && (since <? ChangeNumber split))
    items.

(** The body of the [for _, skey := range item.Keys] loop of
    [fetchSegmentsFromDB]; the accumulator is [(added, removed, till)]. *)
Definition segmentStep (since : Z) (acc : list string * list string * Z)
    (skey : SegmentKey) : list string * list string * Z :=
  let '(added, removed, till) := acc in
  if since <? KeyChangeNumber skey then
    let '(added, removed) :=
      if Removed skey then
        (added, if 0 <? since then removed ++ [KeyName skey] else removed)
      else (added ++ [KeyName skey], removed) in
    let till :=
      if 0 <? since then
        (if till <? KeyChangeNumber skey then KeyChangeNumber skey else till)
      else
        (if negb (Removed skey) && (till <? KeyChangeNumber skey)
         then KeyChangeNumber skey else till) in
    (added, removed, till)
  else (added, removed, till).

(** [fetchSegmentsFromDB]; [fetched] is what
    [segmentCollection.Fetch(segmentName)] returned. *)
Definition fetchSegmentsFromDB (since : Z)
    (fetched : error + SegmentChangesItem)
    : list string * list string * Z * option error :=
  let added := [] in
  let removed := [] in
  let till := since in
  match fetched with
  | inl err => (added, removed, till, Some err)
  | inr item =>
      let '(added, removed, till) :=
        fold_left (segmentStep since) (Keys item) (added, removed, till) in
      (added, removed, till, None)
  end.

(** The deltas newer than [since], those of them that add a key and
    those that remove one, and the largest change number of a list of
    deltas that is at least [since]: the vocabulary of the segment
    contract. *)
Definition deltasAfter (since : Z) (keys : list SegmentKey) : list SegmentKey :=
  List.filter (fun skey => since <? KeyChangeNumber skey) keys.

Definition addedDeltas (keys : list SegmentKey) : list SegmentKey :=
  List.filter (fun skey => negb (Removed skey)) keys.

Definition removedDeltas (keys : list SegmentKey) : list SegmentKey :=
  List.filter Removed keys.

Definition maxChangeNumber (since : Z) (keys : list SegmentKey) : Z :=
  fold_left Z.max (map KeyChangeNumber keys) since.

(** The segment contract as the specification words it: [since < 0]
    against [since >= 0]. *)
Definition segmentContractAsStated (since : Z) (keys : list SegmentKey)
    (added removed : list string) (till : Z) : Prop :=
  (since < 0 ->
     removed = [] /\
     till = maxChangeNumber since (addedDeltas (deltasAfter since keys))) /\
  (0 <= since ->
     added = map KeyName (addedDeltas (deltasAfter since keys)) /\
     removed = map KeyName (removedDeltas (deltasAfter since keys)) /\
     till = maxChangeNumber since (deltasAfter since keys) /\
     since <= till).

(** The contract the code implements: the cases are [since <= 0] and
    [0 < since]. *)
Definition segmentContract (since : Z) (keys : list SegmentKey)
    (added removed : list string) (till : Z) : Prop :=
  added = map KeyName (addedDeltas (deltasAfter since keys)) /\
  since <= till /\
  (since <= 0 ->
     removed = [] /\
     till = maxChangeNumber since (addedDeltas (deltasAfter since keys))) /\
  (0 < since ->
     removed = map KeyName (removedDeltas (deltasAfter since keys)) /\
     till = maxChangeNumber since (deltasAfter since keys)).

(** A stored collection: an old split, a recent one and an archived one. *)
Definition sampleSplits : list SplitChangesItem :=
  [ {| ChangeNumber := 3; Name := "a"; Status := "ACTIVE"; JSON := "{a}" |};
    {| ChangeNumber := 9; Name := "b"; Status := "ACTIVE"; JSON := "{b}" |};
    {| ChangeNumber := 12; Name := "c"; Status := "ARCHIVED"; JSON := "{c}" |} ].

(** *** Split changes *)

Lemma splits_loop since items splits till :
  fold_left (splitsStep since) items (splits, till) =
  (splits ++ map JSON (selected since items),
   fold_left Z.max (map ChangeNumber (selected since items)) till).
Proof.
  revert splits till.
  induction items as [|split items IH]; intros splits till; simpl.
  - by rewrite app_nil_r.
  - destruct (String.eqb (Status split) "ACTIVE" && (since <? ChangeNumber split));
      simpl; [|apply IH].
    rewrite IH, <- app_assoc. simpl. do 2 f_equal.
    destruct (Z.ltb_spec till (ChangeNumber split)); f_equal; lia.
Qed.

Lemma fold_max_ge (l : list Z) (z : Z) : z <= fold_left Z.max l z.
Proof.
  revert z. induction l as [|x l IH]; intros z; simpl; [lia|].
  specialize (IH (Z.max z x)). lia.
Qed.

Lemma selected_newer since items split :
  In split (selected since items) -> since < ChangeNumber split.
Proof.
  unfold selected. rewrite filter_In. intros [_ H].
  apply andb_prop in H as [_ H]. by apply Z.ltb_lt.
Qed.




(** *** Segment changes *)

(** A stored segment whose only delta removes a key at change number 5. *)
Definition sampleSegment : SegmentChangesItem :=
  {| SegmentName := "employees";
     Keys := [ {| KeyName := "k1"; Removed := true; KeyChangeNumber := 5 |} ] |}.

Lemma segments_loop since keys added removed till :
  fold_left (segmentStep since) keys (added, removed, till) =
  (added ++ map KeyName (addedDeltas (deltasAfter since keys)),
   removed ++
     (if 0 <? since then map KeyName (removedDeltas (deltasAfter since keys)) else []),
   fold_left Z.max
     (map KeyChangeNumber
        (if 0 <? since then deltasAfter since keys
         else addedDeltas (deltasAfter since keys)))
     till).
Proof.
  revert added removed till.
  induction keys as [|skey keys IH]; intros added removed till; simpl.
  - destruct (0 <? since); simpl; by rewrite !app_nil_r.
  - destruct (Z.ltb_spec since (KeyChangeNumber skey)) as [Hnew|Hold];
      simpl; [|apply IH].
    assert (Hmax : (if till <? KeyChangeNumber skey
                    then KeyChangeNumber skey else till)
                   = Z.max till (KeyChangeNumber skey))
      by (destruct (Z.ltb_spec till (KeyChangeNumber skey)); lia).
    destruct (Removed skey) eqn:Hrem; simpl; rewrite IH; clear IH;
      destruct (Z.ltb_spec 0 since); simpl;
      rewrite <- ?app_assoc, ?Hmax; reflexivity.
Qed.

(** C4, as the code has it.  For every stored segment,
    [fetchSegmentsFromDB] returns as [added] the keys of the adding
    deltas newer than [since] and a [till] of at least [since]; for
    [since <= 0] the removed list is empty and [till] is the largest
    change number among the adding deltas only; for [since > 0] the
    removed list holds the keys of the removing deltas newer than
    [since] and [till] is the largest change number of all deltas
    newer than [since]. *)
Theorem fetchSegmentsFromDB_contract (since : Z) (item : SegmentChangesItem) :
  let '(added, removed, till, err) := fetchSegmentsFromDB since (inr item) in
  err = None /\ segmentContract since (Keys item) added removed till.
Proof.
  unfold fetchSegmentsFromDB. rewrite segments_loop. simpl.
  split; [done|]. unfold segmentContract, maxChangeNumber.
  split; [done|]. split; [apply fold_max_ge|].
  split; intros Hs.
  - destruct (Z.ltb_spec 0 since); [lia|]. done.
  - destruct (Z.ltb_spec 0 since); [|lia]. done.
Qed.

(** C4, as stated, fails at [since = 0]: the removing delta at change
    number 5 is neither listed in [removed] nor counted in [till]. *)
Lemma fetchSegmentsFromDB_since_zero :
  fetchSegmentsFromDB 0 (inr sampleSegment) = ([], [], 0, None) /\
  ~ segmentContractAsStated 0 (Keys sampleSegment) [] [] 0.
Proof.
  split; [reflexivity|].
  intros [_ H]. destruct H as (_ & Hremoved & _); [lia|].
  discriminate Hremoved.
Qed.

End LegacyProxy.

(** ** Timesliced endpoint telemetry ([proxy/storage]) *)

Module TimeslicedTelemetry.

Section Timesliced.

(** [timeSliceTelemetry], the per-timeslice aggregate, with its
    constructor and the two recording methods of its fields: their
    sources are not part of this development and nothing below
    depends on what they store. *)
Context {timeSliceTelemetry : Type}.
Variable newTimeSliceTelemetry : Z -> timeSliceTelemetry.
Variable recordEndpointLatency : Z -> Z -> timeSliceTelemetry -> timeSliceTelemetry.
Variable incrEndpointStatus : Z -> Z -> timeSliceTelemetry -> timeSliceTelemetry.

(** [TimeslicedProxyEndpointTelemetryImpl], without the wrapped global
    facade, the mutex and the clock (the clock's reading is an
    argument of the operations). *)
Record TimeslicedProxyEndpointTelemetryImpl : Type := {
  telemetryByTimeSlice : gmap Z timeSliceTelemetry;
  timeSliceWidth : Z;
  maxTimeSlices : Z
}.

Definition NewTimeslicedProxyEndpointTelemetry (width maxSlices : Z)
    : TimeslicedProxyEndpointTelemetryImpl :=
  {| telemetryByTimeSlice := ∅;
     timeSliceWidth := width;
     maxTimeSlices := maxSlices |}.

Definition setBuckets (t : TimeslicedProxyEndpointTelemetryImpl)
    (m : gmap Z timeSliceTelemetry) : TimeslicedProxyEndpointTelemetryImpl :=
  {| telemetryByTimeSlice := m;
     timeSliceWidth := timeSliceWidth t;
     maxTimeSlices := maxTimeSlices t |}.

(** The number of live buckets, [len(t.telemetryByTimeSlice)]. *)
Definition liveBuckets (t : TimeslicedProxyEndpointTelemetryImpl) : Z :=
  Z.of_nat (size (telemetryByTimeSlice t)).

(** [keyForTimeSlice]: [curr - (curr % width)] with Go's truncated
    remainder; a zero width is a run-time panic, [None]. *)
Definition keyForTimeSlice (curr intervalWidthInSeconds : Z) : option Z :=
  if intervalWidthInSeconds =? 0 then None
  else Some (curr - Z.rem curr intervalWidthInSeconds).

(** The keys of the map, sorted ascending as [sort.Slice] leaves them
    (the keys of a map are distinct, so the order is unique). *)
Definition sortedKeys (m : gmap Z timeSliceTelemetry) : list Z :=
  merge_sort Z.le (map_to_list m).*1.

(** [unsafeRollover].  The slice expression [keys[0:len(keys)-max]]
    panics when its bound exceeds the capacity of [keys], which is
    the size of the map: [None]. *)
Definition unsafeRollover (t : TimeslicedProxyEndpointTelemetryImpl)
    : option TimeslicedProxyEndpointTelemetryImpl :=
  if bool_decide (liveBuckets t <= maxTimeSlices t) then Some t
  else
    let keys := sortedKeys (telemetryByTimeSlice t) in
    let bound := Z.of_nat (length keys) - maxTimeSlices t in
    if bool_decide (0 <= bound <= Z.of_nat (length keys)) then
      Some (setBuckets t
              (foldl (fun m key => delete key m) (telemetryByTimeSlice t)
                 (take (Z.to_nat bound) keys)))
    else None.

(** [geHistoricForTS].  The returned pointer is represented by the key
    of the bucket it points to: a write through it reaches the map
    when the bucket is still there. *)
Definition geHistoricForTS (t : TimeslicedProxyEndpointTelemetryImpl) (ts : Z)
    : option (Z * TimeslicedProxyEndpointTelemetryImpl) :=
  timeSlice ← keyForTimeSlice ts (timeSliceWidth t);
  match telemetryByTimeSlice t !! timeSlice with
  | Some _ => Some (timeSlice, t)
  | None =>
      let current := newTimeSliceTelemetry timeSlice in
      let t1 := setBuckets t (<[timeSlice := current]> (telemetryByTimeSlice t)) in
      if bool_decide (maxTimeSlices t1 < liveBuckets t1) then
        t2 ← unsafeRollover t1; Some (timeSlice, t2)
      else Some (timeSlice, t1)
  end.

(** [RecordEndpointLatency] and [IncrEndpointStatus], at clock reading
    [now]. *)
Definition RecordEndpointLatency (t : TimeslicedProxyEndpointTelemetryImpl)
    (now endpoint latency : Z) : option TimeslicedProxyEndpointTelemetryImpl :=
  '(timesliced, t') ← geHistoricForTS t now;
  Some (setBuckets t'
          (alter (recordEndpointLatency endpoint latency) timesliced
             (telemetryByTimeSlice t'))).

Definition IncrEndpointStatus (t : TimeslicedProxyEndpointTelemetryImpl)
    (now endpoint status : Z) : option TimeslicedProxyEndpointTelemetryImpl :=
  '(timesliced, t') ← geHistoricForTS t now;
  Some (setBuckets t'
          (alter (incrEndpointStatus endpoint status) timesliced
             (telemetryByTimeSlice t'))).

(** The record operations and the states a telemetry value goes
    through from its construction. *)
Inductive recordOp : Type :=
  | OpLatency (now endpoint latency : Z)
  | OpStatus (now endpoint status : Z).

Definition record (t : TimeslicedProxyEndpointTelemetryImpl) (op : recordOp)
    : option TimeslicedProxyEndpointTelemetryImpl :=
  match op with
  | OpLatency now endpoint latency => RecordEndpointLatency t now endpoint latency
  | OpStatus now endpoint status => IncrEndpointStatus t now endpoint status
  end.

Inductive reachable (width maxSlices : Z)
    : TimeslicedProxyEndpointTelemetryImpl -> Prop :=
  | reachable_new :
      reachable width maxSlices (NewTimeslicedProxyEndpointTelemetry width maxSlices)
  | reachable_record t op t' :
      reachable width maxSlices t -> record t op = Some t' ->
      reachable width maxSlices t'.

(** What an eviction from [t] to [t'] has to satisfy: the survivors
    are buckets of [t], untouched; there are exactly [maxTimeSlices]
    of them; and every evicted key is older than every surviving
    one. *)
Definition evictsOldest (t t' : TimeslicedProxyEndpointTelemetryImpl) : Prop :=
  liveBuckets t' = maxTimeSlices t /\
  telemetryByTimeSlice t' ⊆ telemetryByTimeSlice t /\
  forall old kept : Z,
    old ∈ dom (telemetryByTimeSlice t) ->
    old ∉ dom (telemetryByTimeSlice t') ->
    kept ∈ dom (telemetryByTimeSlice t') ->
    old < kept.

(** *** Sorted keys and deletion of a list of keys *)

Lemma lookup_foldl_delete (keys : list Z) (m : gmap Z timeSliceTelemetry) (j : Z) :
  foldl (fun m key => delete key m) m keys !! j =
  if decide (j ∈ keys) then None else m !! j.
Proof.
  revert m. induction keys as [|key keys IH]; intros m; [done|].
  cbn [foldl]. rewrite IH. destruct (decide (j = key)) as [->|Hne].
  - rewrite lookup_delete_eq.
    rewrite (decide_True (P := key ∈ key :: keys)) by apply list_elem_of_here.
    by case_decide.
  - rewrite lookup_delete_ne by done.
    destruct (decide (j ∈ keys)) as [Hin|Hin].
    + rewrite (decide_True (P := j ∈ key :: keys)); [done|].
      by apply list_elem_of_further.
    + rewrite (decide_False (P := j ∈ key :: keys)); [done|].
      intros [?|?]%elem_of_cons; done.
Qed.

Lemma sortedKeys_Permutation (m : gmap Z timeSliceTelemetry) :
  sortedKeys m ≡ₚ (map_to_list m).*1.
Proof. apply merge_sort_Permutation. Qed.

Lemma elem_of_sortedKeys (m : gmap Z timeSliceTelemetry) (k : Z) :
  k ∈ sortedKeys m <-> k ∈ dom m.
Proof.
  rewrite sortedKeys_Permutation, elem_of_dom, list_elem_of_fmap.
  split.
  - intros [[k' b] [-> Hin]]. apply elem_of_map_to_list in Hin. by exists b.
  - intros [b Hb]. exists (k, b). split; [done|]. by apply elem_of_map_to_list.
Qed.

Lemma NoDup_sortedKeys (m : gmap Z timeSliceTelemetry) : NoDup (sortedKeys m).
Proof. rewrite sortedKeys_Permutation. apply NoDup_fst_map_to_list. Qed.

Lemma length_sortedKeys (m : gmap Z timeSliceTelemetry) :
  length (sortedKeys m) = size m.
Proof.
  rewrite sortedKeys_Permutation, length_fmap. apply length_map_to_list.
Qed.

Lemma sortedKeys_sorted (m : gmap Z timeSliceTelemetry) :
  StronglySorted Z.le (sortedKeys m).
Proof. apply StronglySorted_merge_sort; apply _. Qed.

(** *** Eviction *)

Lemma unsafeRollover_within (t : TimeslicedProxyEndpointTelemetryImpl) :
  liveBuckets t <= maxTimeSlices t -> unsafeRollover t = Some t.
Proof. intros H. unfold unsafeRollover. by rewrite bool_decide_eq_true_2. Qed.

Lemma unsafeRollover_evicts (t t' : TimeslicedProxyEndpointTelemetryImpl) :
  maxTimeSlices t < liveBuckets t ->
  unsafeRollover t = Some t' ->
  evictsOldest t t' /\
  timeSliceWidth t' = timeSliceWidth t /\ maxTimeSlices t' = maxTimeSlices t.
Proof.
  intros Hover Hrun. unfold unsafeRollover in Hrun.
  rewrite bool_decide_eq_false_2 in Hrun by lia.
  case_bool_decide as Hbound; [|done].
  injection Hrun as <-. simpl. split; [|done].
  set (m := telemetryByTimeSlice t) in *.
  set (keys := sortedKeys m) in *.
  set (n := Z.to_nat (Z.of_nat (length keys) - maxTimeSlices t)) in *.
  assert (Hsplit : keys = take n keys ++ drop n keys)
    by (symmetry; apply take_drop).
  assert (Hnd : NoDup (take n keys ++ drop n keys))
    by (rewrite <- Hsplit; apply NoDup_sortedKeys).
  assert (Hsorted : StronglySorted Z.le (take n keys ++ drop n keys))
    by (rewrite <- Hsplit; apply sortedKeys_sorted).
  apply NoDup_app in Hnd as (Hnd1 & Hdisj & Hnd2).
  assert (Hdom : forall j, j ∈ dom (foldl (fun m key => delete key m) m (take n keys))
                           <-> j ∈ drop n keys).
  { intros j. rewrite elem_of_dom, lookup_foldl_delete.
    case_decide as Hin.
    - split; [by intros [? ?] | intros Hd; by apply Hdisj in Hin].
    - rewrite <- elem_of_dom, <- elem_of_sortedKeys. fold keys.
      rewrite Hsplit at 1. rewrite elem_of_app. tauto. }
  unfold evictsOldest, liveBuckets. simpl. fold m. split; [|split].
  - assert (Heq : dom (foldl (fun m key => delete key m) m (take n keys))
                  = list_to_set (drop n keys)).
    { apply set_eq. intros j. rewrite Hdom, elem_of_list_to_set. done. }
    rewrite <- size_dom, Heq, size_list_to_set by done.
    rewrite length_drop. unfold n. lia.
  - apply map_subseteq_spec. intros j b. rewrite lookup_foldl_delete.
    by case_decide.
  - intros old kept Hold Hgone Hkept.
    apply Hdom in Hkept.
    assert (Hin : old ∈ take n keys).
    { apply elem_of_sortedKeys in Hold. fold keys in Hold.
      rewrite Hsplit in Hold. apply elem_of_app in Hold as [|Hd]; [done|].
      by apply Hdom in Hd. }
    pose proof (StronglySorted_app_1_elem_of _ _ _ _ _ Hsorted Hin Hkept) as Hle.
    assert (old <> kept) by (intros ->; by apply Hdisj in Hin).
    lia.
Qed.

Lemma unsafeRollover_total (t : TimeslicedProxyEndpointTelemetryImpl) :
  0 <= maxTimeSlices t -> is_Some (unsafeRollover t).
Proof.
  intros Hmax. unfold unsafeRollover.
  case_bool_decide; [by eexists|].
  rewrite bool_decide_eq_true_2; [by eexists|].
  rewrite length_sortedKeys. unfold liveBuckets in *. lia.
Qed.

(** *** The record operations *)

(** Either the state is within its bound, or it is the empty state a
    constructor called with a negative bound returns. *)
Definition bounded (t : TimeslicedProxyEndpointTelemetryImpl) : Prop :=
  liveBuckets t <= maxTimeSlices t \/ telemetryByTimeSlice t = ∅.

Lemma geHistoricForTS_bounded (t t' : TimeslicedProxyEndpointTelemetryImpl)
    (ts timeSlice : Z) :
  bounded t ->
  geHistoricForTS t ts = Some (timeSlice, t') ->
  liveBuckets t' <= maxTimeSlices t' /\
  timeSliceWidth t' = timeSliceWidth t /\ maxTimeSlices t' = maxTimeSlices t.
Proof.
  intros Hb Hrun. unfold geHistoricForTS in Hrun.
  destruct (keyForTimeSlice ts (timeSliceWidth t)) as [key|]; [|done].
  simpl in Hrun.
  destruct (telemetryByTimeSlice t !! key) as [b|] eqn:Hkey.
  - injection Hrun as <- <-. split; [|done].
    destruct Hb as [Hb|Hb]; [done|]. rewrite Hb in Hkey. done.
  - case_bool_decide as Hover.
    + destruct (unsafeRollover _) as [t2|] eqn:Hroll; [|done].
      injection Hrun as <- <-.
      apply unsafeRollover_evicts in Hroll as ([Hsize _] & Hw & Hm); [|done].
      rewrite Hw, Hm. simpl in *. split; [lia | done].
    + injection Hrun as <- <-. simpl in *. split; [lia | done].
Qed.

Lemma geHistoricForTS_total (t : TimeslicedProxyEndpointTelemetryImpl) (ts : Z) :
  0 <= maxTimeSlices t -> timeSliceWidth t <> 0 ->
  is_Some (geHistoricForTS t ts).
Proof.
  intros Hmax Hwidth. unfold geHistoricForTS, keyForTimeSlice.
  destruct (Z.eqb_spec (timeSliceWidth t) 0); [done|]. simpl.
  destruct (telemetryByTimeSlice t !! _); [by eexists|].
  case_bool_decide; [|by eexists].
  match goal with
  | |- context [unsafeRollover ?t1] =>
      destruct (unsafeRollover_total t1 Hmax) as [t2 ->]
  end.
  by eexists.
Qed.

Lemma liveBuckets_alter (t : TimeslicedProxyEndpointTelemetryImpl)
    (f : timeSliceTelemetry -> timeSliceTelemetry) (key : Z) :
  liveBuckets (setBuckets t (alter f key (telemetryByTimeSlice t))) = liveBuckets t.
Proof.
  unfold liveBuckets. simpl.
  by rewrite <- !size_dom, dom_alter_L.
Qed.

Lemma record_bounded (t t' : TimeslicedProxyEndpointTelemetryImpl) (op : recordOp) :
  bounded t ->
  record t op = Some t' ->
  liveBuckets t' <= maxTimeSlices t' /\
  timeSliceWidth t' = timeSliceWidth t /\ maxTimeSlices t' = maxTimeSlices t.
Proof.
  intros Hb Hrun.
  destruct op as [now endpoint latency|now endpoint status]; simpl in Hrun;
    unfold RecordEndpointLatency, IncrEndpointStatus in Hrun;
    destruct (geHistoricForTS t now) as [[key t1]|] eqn:Hget; try done;
    simpl in Hrun; injection Hrun as <-;
    apply (geHistoricForTS_bounded _ _ _ _ Hb) in Hget as (Hsize & Hw & Hm);
    rewrite liveBuckets_alter; simpl; done.
Qed.

Lemma record_total (t : TimeslicedProxyEndpointTelemetryImpl) (op : recordOp) :
  0 <= maxTimeSlices t -> timeSliceWidth t <> 0 -> is_Some (record t op).
Proof.
  intros Hmax Hwidth.
  destruct op as [now endpoint latency|now endpoint status]; simpl;
    unfold RecordEndpointLatency, IncrEndpointStatus;
    destruct (geHistoricForTS_total t now Hmax Hwidth) as [[key t1] ->];
    by eexists.
Qed.

Lemma reachable_bounded (width maxSlices : Z)
    (t : TimeslicedProxyEndpointTelemetryImpl) :
  reachable width maxSlices t ->
  bounded t /\ timeSliceWidth t = width /\ maxTimeSlices t = maxSlices.
Proof.
  induction 1 as [|t op t' _ (Hb & Hw & Hm) Hrun].
  - split; [by right | done].
  - apply (record_bounded _ _ _ Hb) in Hrun as (Hsize & Hw' & Hm').
    split; [by left | split; congruence].
Qed.

(** C5.  Bucket retention.  In every state the telemetry reaches from
    its construction, a record operation leaves at most
    [maxTimeSlices] live buckets (and it does complete, for a
    non-negative bound and a non-zero width); and whenever
    [unsafeRollover] finds the map over its bound, the state it
    leaves has exactly [maxTimeSlices] buckets, each an untouched
    bucket of the map, and every key it deleted is smaller than every
    key it kept. *)
Theorem bucket_retention (width maxSlices : Z)
    (t : TimeslicedProxyEndpointTelemetryImpl) (op : recordOp) :
  reachable width maxSlices t ->
  (forall t', record t op = Some t' -> liveBuckets t' <= maxSlices) /\
  (0 <= maxSlices -> width <> 0 -> is_Some (record t op)) /\
  (forall t0 t1,
     maxTimeSlices t0 < liveBuckets t0 ->
     unsafeRollover t0 = Some t1 ->
     evictsOldest t0 t1) /\
  (forall t0, 0 <= maxTimeSlices t0 -> is_Some (unsafeRollover t0)).
Proof.
  intros (Hb & Hw & Hm)%reachable_bounded. split; [|split; [|split]].
  - intros t' Hrun. apply (record_bounded _ _ _ Hb) in Hrun as (? & ? & ?). lia.
  - intros Hmax Hwidth. apply record_total; congruence.
  - intros t0 t1 Hover Hroll. by apply unsafeRollover_evicts in Hroll as [? _].
  - apply unsafeRollover_total.
Qed.

End Timesliced.

(** A concrete bucket: the list of latencies recorded in the slice. *)
Definition sampleNew (timeSlice : Z) : list Z := [].
Definition sampleLatency (endpoint latency : Z) (b : list Z) : list Z := latency :: b.
Definition sampleStatus (endpoint status : Z) (b : list Z) : list Z := b.

(** Three observations in three consecutive one-minute slices, with
    room for two slices. *)
Definition sampleRun : option (@TimeslicedProxyEndpointTelemetryImpl (list Z)) :=
  t1 ← RecordEndpointLatency sampleNew sampleLatency
          (NewTimeslicedProxyEndpointTelemetry 60 2) 5 0 10;
  t2 ← RecordEndpointLatency sampleNew sampleLatency t1 65 0 20;
  RecordEndpointLatency sampleNew sampleLatency t2 125 0 30.

Example sampleRun_keeps_newest :
  (fun t => map_to_list (telemetryByTimeSlice t)) <$> sampleRun
  = Some [(60, [20]); (120, [30])].
Proof. vm_compute. reflexivity. Qed.

Lemma bucket_retention_witness :
  let t := NewTimeslicedProxyEndpointTelemetry (timeSliceTelemetry := list Z) 60 2 in
  let op := OpLatency 5 0 10 in
  (forall t', record sampleNew sampleLatency sampleStatus t op = Some t' ->
              liveBuckets t' <= 2) /\
  (0 <= 2 -> 60 <> 0 -> is_Some (record sampleNew sampleLatency sampleStatus t op)) /\
  (forall t0 t1 : @TimeslicedProxyEndpointTelemetryImpl (list Z),
     maxTimeSlices t0 < liveBuckets t0 ->
     unsafeRollover t0 = Some t1 ->
     evictsOldest t0 t1) /\
  (forall t0 : @TimeslicedProxyEndpointTelemetryImpl (list Z),
     0 <= maxTimeSlices t0 -> is_Some (unsafeRollover t0)).
Proof.
  apply (bucket_retention sampleNew sampleLatency sampleStatus 60 2).
  apply reachable_new.
Defined.

End TimeslicedTelemetry.

(** ** Stats storage ([stats/storage.go]) *)

Module Stats.

Definition lastStoredLatencies : nat := 500.

(** The package-level variables: the flag and the two storage pointers,
    [None] for [nil]. *)
Record Storage : Type := {
  storageInitialized : bool;
  countersStorage : option (gmap string Z);
  latenciesStorage : option (gmap string (list Z))
}.

(** The state of the package when the process starts. *)
Definition start : Storage :=
  {| storageInitialized := false;
     countersStorage := None;
     latenciesStorage := None |}.

(** [CounterStorage.Add]: [c.counters[name] += value], a missing entry
    reading as zero and the sum wrapping as [int64] sums do. *)
Definition CounterStorage_Add (counters : gmap string Z) (name : string) (value : Z)
    : gmap string Z :=
  <[name := wrap64 (default 0 (counters !! name) + value)]> counters.

(** [LatencyStorage.Add]: append, then keep the last
    [lastStoredLatencies] values. *)
Definition LatencyStorage_Add (latencies : gmap string (list Z)) (name : string)
    (value : list Z) : gmap string (list Z) :=
  let appended := default [] (latencies !! name) ++ value in
  let kept :=
    if bool_decide (lastStoredLatencies < length appended)%nat
    then drop (length appended - lastStoredLatencies) appended
    else appended in
  <[name := kept]> latencies.

(** [Initialize]. *)
Definition Initialize (s : Storage) : Storage :=
  {| storageInitialized := true;
     countersStorage := Some ∅;
     latenciesStorage := Some ∅ |}.

(** [SaveCounter]; the outer [None] is the panic of a method call on a
    [nil] storage. *)
Definition SaveCounter (s : Storage) (name : string) (value : Z)
    : option (option error * Storage) :=
  if negb (storageInitialized s) then Some (Some ErrStorageNotInitialized, s)
  else
    counters ← countersStorage s;
    Some (None,
          {| storageInitialized := storageInitialized s;
             countersStorage := Some (CounterStorage_Add counters name value);
             latenciesStorage := latenciesStorage s |}).

(** [SaveLatency]. *)
Definition SaveLatency (s : Storage) (name : string) (latencies : list Z)
    : option (option error * Storage) :=
  if negb (storageInitialized s) then Some (Some ErrStorageNotInitialized, s)
  else
    stored ← latenciesStorage s;
    Some (None,
          {| storageInitialized := storageInitialized s;
             countersStorage := countersStorage s;
             latenciesStorage := Some (LatencyStorage_Add stored name latencies) |}).

(** [Counters] and [Latencies], the readers. *)
Definition Counters (s : Storage) : option (gmap string Z) := countersStorage s.

(** The states of the package once [Initialize] has been called. *)
Inductive initialized : Storage -> Prop :=
  | initialized_Initialize s : initialized (Initialize s)
  | initialized_SaveCounter s name value err s' :
      initialized s -> SaveCounter s name value = Some (err, s') -> initialized s'
  | initialized_SaveLatency s name latencies err s' :
      initialized s -> SaveLatency s name latencies = Some (err, s') -> initialized s'.

Lemma initialized_storages (s : Storage) :
  initialized s ->
  storageInitialized s = true /\
  is_Some (countersStorage s) /\ is_Some (latenciesStorage s).
Proof.
  induction 1 as [s|s name value err s' _ (Hflag & [c Hc] & Hl) Hrun
                   |s name latencies err s' _ (Hflag & Hc & [l Hl]) Hrun].
  - simpl. eauto.
  - unfold SaveCounter in Hrun. rewrite Hflag, Hc in Hrun. simpl in Hrun.
    injection Hrun as _ <-. simpl. eauto.
  - unfold SaveLatency in Hrun. rewrite Hflag, Hl in Hrun. simpl in Hrun.
    injection Hrun as _ <-. simpl. eauto.
Qed.

Lemma LatencyStorage_Add_suffix (stored : gmap string (list Z)) (name : string)
    (latencies : list Z) :
  (length latencies <= lastStoredLatencies)%nat ->
  exists kept, LatencyStorage_Add stored name latencies !! name = Some kept /\
               latencies `suffix_of` kept.
Proof.
  intros Hlen. unfold LatencyStorage_Add. rewrite lookup_insert_eq.
  eexists. split; [done|].
  set (old := default [] (stored !! name)).
  case_bool_decide as Hover.
  - rewrite drop_app_le by (rewrite length_app in *; lia).
    by apply suffix_app_r.
  - by apply suffix_app_r.
Qed.

(** C10.  While the storage has not been initialized, [SaveCounter] and
    [SaveLatency] return the storage-not-initialized error and leave
    every package variable as it was.  Once [Initialize] has been
    called, both return [nil]: [SaveCounter] adds the value to the
    counter of the given name (and changes nothing else), [SaveLatency]
    appends the values to the latencies of the given name, keeping the
    newest [lastStoredLatencies] of them (so a batch that fits is
    retained whole, at the end). *)
Theorem save_after_Initialize (s : Storage) (name : string) (value : Z)
    (latencies : list Z) :
  (storageInitialized s = false ->
     SaveCounter s name value = Some (Some ErrStorageNotInitialized, s) /\
     SaveLatency s name latencies = Some (Some ErrStorageNotInitialized, s)) /\
  (initialized s ->
     exists counters stored,
       countersStorage s = Some counters /\ latenciesStorage s = Some stored /\
       SaveCounter s name value =
         Some (None,
               {| storageInitialized := true;
                  countersStorage :=
                    Some (<[name := wrap64 (default 0 (counters !! name) + value)]> counters);
                  latenciesStorage := Some stored |}) /\
       SaveLatency s name latencies =
         Some (None,
               {| storageInitialized := true;
                  countersStorage := Some counters;
                  latenciesStorage := Some (LatencyStorage_Add stored name latencies) |}) /\
       (forall other, other <> name ->
          LatencyStorage_Add stored name latencies !! other = stored !! other) /\
       ((length latencies <= lastStoredLatencies)%nat ->
          exists kept, LatencyStorage_Add stored name latencies !! name = Some kept /\
                       latencies `suffix_of` kept)).
Proof.
  split.
  - intros Hflag. unfold SaveCounter, SaveLatency. by rewrite Hflag.
  - intros (Hflag & [counters Hc] & [stored Hl])%initialized_storages.
    exists counters, stored. unfold SaveCounter, SaveLatency.
    rewrite Hflag, Hc, Hl. simpl. repeat split; try done.
    + intros other Hne. unfold LatencyStorage_Add. by rewrite lookup_insert_ne.
    + apply LatencyStorage_Add_suffix.
Qed.

Lemma save_after_Initialize_witness :
  (SaveCounter start "requests" 3 = Some (Some ErrStorageNotInitialized, start) /\
   SaveLatency start "requests" [7; 9] = Some (Some ErrStorageNotInitialized, start)) /\
  (exists counters stored,
     countersStorage (Initialize start) = Some counters /\
     latenciesStorage (Initialize start) = Some stored /\
     SaveCounter (Initialize start) "requests" 3 =
       Some (None,
             {| storageInitialized := true;
                countersStorage :=
                  Some (<["requests" := wrap64 (default 0 (counters !! "requests") + 3)]>
                          counters);
                latenciesStorage := Some stored |}) /\
     SaveLatency (Initialize start) "requests" [7; 9] =
       Some (None,
             {| storageInitialized := true;
                countersStorage := Some counters;
                latenciesStorage := Some (LatencyStorage_Add stored "requests" [7; 9]) |}) /\
     (forall other, other <> "requests" ->
        LatencyStorage_Add stored "requests" [7; 9] !! other = stored !! other) /\
     ((length [7; 9] <= lastStoredLatencies)%nat ->
        exists kept, LatencyStorage_Add stored "requests" [7; 9] !! "requests" = Some kept /\
                     [7; 9] `suffix_of` kept)).
Proof.
  split.
  - apply (save_after_Initialize start "requests" 3 [7; 9]). reflexivity.
  - apply (save_after_Initialize (Initialize start) "requests" 3 [7; 9]).
    apply initialized_Initialize.
Defined.

Example SaveCounter_accumulates :
  (s1 ← SaveCounter (Initialize start) "requests" 3;
   s2 ← SaveCounter s1.2 "requests" 4;
   Counters s2.2 ≫= (.!! "requests")) = Some 7.
Proof. vm_compute. reflexivity. Qed.

End Stats.

(** ** The pieces of Go's standard library the handlers use *)

Module GoStd.

(** [strings.Replace(s, old, new, n)] for a non-empty [old]: the first
    [n] non-overlapping occurrences, all of them when [n < 0].  [skip]
    counts the bytes of a matched occurrence still to be passed over.
    (With an empty [old] Go inserts [new] between the runes of [s]; no
    caller here does that and the case is left as the identity.) *)
Fixpoint replaceFrom (skip : nat) (old new s : string) (n : Z) : string :=
  match s with
  | EmptyString => EmptyString
  | String c rest =>
      match skip with
      | S skip' => replaceFrom skip' old new rest n
      | O =>
          if n =? 0 then s
          else if String.prefix old s then
            new +:+ replaceFrom (String.length old - 1) old new rest (n - 1)
          else String c (replaceFrom 0 old new rest n)
      end
  end.

Definition strings_Replace (s old new : string) (n : Z) : string :=
  match old with
  | EmptyString => s
  | _ => replaceFrom 0 old new s n
  end.

(** The errors of [strconv]. *)
Inductive NumError : Type := ErrSyntax | ErrRange.

Definition isDigit (c : ascii) : bool :=
  (48 <=? Z.of_nat (nat_of_ascii c)) && (Z.of_nat (nat_of_ascii c) <=? 57).

Definition digitValue (c : ascii) : Z := Z.of_nat (nat_of_ascii c) - 48.

(** The digit loop of [strconv.ParseUint] in base 10: a byte that is not
    a digit is a syntax error, a value beyond [maxVal] a range error,
    whichever the scan meets first. *)
Fixpoint parseDigits (maxVal : Z) (s : string) (n : Z) : NumError + Z :=
  match s with
  | EmptyString => inr n
  | String c rest =>
      if isDigit c then
        let n1 := n * 10 + digitValue c in
        if maxVal <? n1 then inl ErrRange else parseDigits maxVal rest n1
      else inl ErrSyntax
  end.

Definition ParseUint10 (s : string) (bitSize : Z) : NumError + Z :=
  match s with
  | EmptyString => inl ErrSyntax
  | _ => parseDigits (2 ^ bitSize - 1) s 0
  end.

(** [strconv.ParseInt(s, 10, bitSize)]: an optional sign, then
    [ParseUint]; the magnitude must fit the signed range.  The value Go
    returns next to an error is dropped: no caller here reads it. *)
Definition ParseInt10 (s : string) (bitSize : Z) : NumError + Z :=
  match s with
  | EmptyString => inl ErrSyntax
  | String c rest =>
      let '(neg, digits) :=
        if Ascii.eqb c "+" then (false, rest)
        else if Ascii.eqb c "-" then (true, rest)
        else (false, s) in
      let cutoff := 2 ^ (bitSize - 1) in
      match ParseUint10 digits bitSize with
      | inl ErrSyntax => inl ErrSyntax
      | inl ErrRange => inl ErrRange
      | inr un =>
          if negb neg && (cutoff <=? un) then inl ErrRange
          else if neg && (cutoff <? un) then inl ErrRange
          else inr (if neg then - un else un)
      end
  end.

(** [strconv.IntSize] on the 64-bit targets the service is built for,
    and [strconv.Atoi], which is [ParseInt(s, 10, 0)]. *)
Definition IntSize : Z := 64.

Definition Atoi (s : string) : NumError + Z := ParseInt10 s IntSize.

(** [gin.Context.DefaultQuery] for one key: [query] is the value of the
    key in the request, [None] when the key is absent. *)
Definition DefaultQuery (query : option string) (defaultValue : string) : string :=
  match query with
  | Some value => value
  | None => defaultValue
  end.

Example ParseInt10_minus_one : ParseInt10 "-1" 64 = inr (-1).
Proof. reflexivity. Qed.

Example ParseInt10_plus : ParseInt10 "+42" 64 = inr 42.
Proof. reflexivity. Qed.

Example ParseInt10_max : ParseInt10 "9223372036854775807" 64 = inr (2 ^ 63 - 1).
Proof. reflexivity. Qed.

Example ParseInt10_min : ParseInt10 "-9223372036854775808" 64 = inr (- 2 ^ 63).
Proof. reflexivity. Qed.

Example ParseInt10_overflow : ParseInt10 "9223372036854775808" 64 = inl ErrRange.
Proof. reflexivity. Qed.

Example ParseInt10_garbage : ParseInt10 "12x" 64 = inl ErrSyntax.
Proof. reflexivity. Qed.

Example ParseInt10_empty : ParseInt10 "" 64 = inl ErrSyntax.
Proof. reflexivity. Qed.

Example strings_Replace_dots : strings_Replace "10.0.0.12" "." "-" (-1) = "10-0-0-12".
Proof. reflexivity. Qed.

Example strings_Replace_limit : strings_Replace "a.b.c.d" "." "--" 2 = "a--b--c.d".
Proof. reflexivity. Qed.

Example strings_Replace_long : strings_Replace "xababab" "aba" "Z" (-1) = "xZbab".
Proof. reflexivity. Qed.

(** A parsed value is in the signed range of its size. *)
Lemma parseDigits_bounds (maxVal : Z) (s : string) (n v : Z) :
  0 <= n <= maxVal -> parseDigits maxVal s n = inr v -> 0 <= v <= maxVal.
Proof.
  revert n. induction s as [|c rest IH]; intros n Hn Hrun; simpl in Hrun.
  - by injection Hrun as <-.
  - destruct (isDigit c) eqn:Hd; [|done].
    destruct (Z.ltb_spec maxVal (n * 10 + digitValue c)); [done|].
    apply (IH (n * 10 + digitValue c)); [|done].
    unfold isDigit, digitValue in *. apply andb_prop in Hd as [?%Z.leb_le _]. lia.
Qed.

Lemma ParseInt10_in_int64 (s : string) (v : Z) :
  ParseInt10 s 64 = inr v -> in_int64 v.
Proof.
  unfold ParseInt10, in_int64. destruct s as [|c rest]; [done|].
  destruct (if Ascii.eqb c "+" then _ else _) as [neg digits].
  destruct (ParseUint10 digits 64) as [[]|un] eqn:Hun; try done.
  assert (0 <= un <= 2 ^ 64 - 1) as Hb.
  { unfold ParseUint10 in Hun. destruct digits; [done|].
    by apply parseDigits_bounds in Hun. }
  change (2 ^ (64 - 1)) with (2 ^ 63).
  destruct neg; simpl.
  - destruct (Z.ltb_spec (2 ^ 63) un); [done|]. intros [= <-]. lia.
  - destruct (Z.leb_spec (2 ^ 63) un); [done|]. intros [= <-]. lia.
Qed.

End GoStd.

(** ** Posting to the events service ([api/post.go]) *)

Module Api.

Import GoStd.

(** Modelled from the spec: the HTTP client of the [api] package
    ([eventsClient], with [ResetHeaders], [AddHeader] and [Post]), whose
    source is not part of this development.  The client carries the
    headers its next request is sent with: [ResetHeaders] empties them,
    [AddHeader] sets one, [Post] sends the body to the URL with them. *)
Record Client : Type := {
  clientHeaders : gmap string string
}.

Record Request : Type := {
  requestURL : string;
  requestHeaders : gmap string string;
  requestBody : string
}.

Definition ResetHeaders (c : Client) : Client := {| clientHeaders := ∅ |}.

Definition AddHeader (c : Client) (name value : string) : Client :=
  {| clientHeaders := <[name := value]> (clientHeaders c) |}.

Definition Post (c : Client) (url data : string) : Request :=
  {| requestURL := url; requestHeaders := clientHeaders c; requestBody := data |}.

(** [fmt.Sprintf("ip-%s", s)]. *)
Definition Sprintf_ip (s : string) : string := "ip-" +:+ s.

(** [PostImpressions]: the request it sends and the error it returns;
    [send] is the answer of the events service to a request. *)
Definition PostImpressions (eventsClient : Client) (send : Request -> option error)
    (data sdkVersion machineIP : string) : Request * option error :=
  let url := "/testImpressions/bulk" in
  let _client := eventsClient in
  let _client := ResetHeaders _client in
  let _client := AddHeader _client "SplitSDKVersion" sdkVersion in
  let _client := AddHeader _client "SplitSDKMachineIP" machineIP in
  let _client :=
    AddHeader _client "SplitSDKMachineName"
      (Sprintf_ip (strings_Replace machineIP "." "-" (-1))) in
  let request := Post _client url data in
  match send request with
  | Some err => (request, Some err)
  | None => (request, None)
  end.

(** The machine IP with its dots replaced by dashes, as the
    specification words it: byte by byte. *)
Fixpoint dashedIP (machineIP : string) : string :=
  match machineIP with
  | EmptyString => EmptyString
  | String c rest =>
      String (if Ascii.eqb c "." then "-"%char else c) (dashedIP rest)
  end.

Lemma prefix_dot (c : ascii) (rest : string) :
  String.prefix "." (String c rest) = Ascii.eqb c ".".
Proof.
  cbn [String.prefix].
  destruct (ascii_dec "."%char c) as [<-|Hne].
  - by destruct rest.
  - symmetry. apply Ascii.eqb_neq. congruence.
Qed.

Lemma replaceFrom_dots (s : string) (n : Z) :
  n < 0 -> replaceFrom 0 "." "-" s n = dashedIP s.
Proof.
  revert n. induction s as [|c rest IH]; intros n Hn; [done|].
  cbn [replaceFrom dashedIP]. rewrite prefix_dot.
  destruct (Z.eqb_spec n 0); [lia|].
  destruct (Ascii.eqb c ".").
  - change (String.length "." - 1)%nat with 0%nat.
    rewrite IH by lia. reflexivity.
  - by rewrite IH.
Qed.

Lemma strings_Replace_dots_dashes (machineIP : string) :
  strings_Replace machineIP "." "-" (-1) = dashedIP machineIP.
Proof. unfold strings_Replace. by apply replaceFrom_dots. Qed.

(** C8.  The request [PostImpressions] sends goes to
    [/testImpressions/bulk] with the given body and carries exactly
    three headers: [SplitSDKVersion] with the SDK version,
    [SplitSDKMachineIP] with the machine IP, and [SplitSDKMachineName]
    with ["ip-"] followed by the machine IP with its dots replaced by
    dashes.  The function takes no machine name: the header has that
    value on every call. *)
Theorem PostImpressions_headers (eventsClient : Client)
    (send : Request -> option error) (data sdkVersion machineIP : string) :
  let request := (PostImpressions eventsClient send data sdkVersion machineIP).1 in
  requestURL request = "/testImpressions/bulk" /\
  requestBody request = data /\
  requestHeaders request !! "SplitSDKVersion" = Some sdkVersion /\
  requestHeaders request !! "SplitSDKMachineIP" = Some machineIP /\
  requestHeaders request !! "SplitSDKMachineName" = Some ("ip-" +:+ dashedIP machineIP) /\
  dom (requestHeaders request) =
    {[ "SplitSDKVersion"; "SplitSDKMachineIP"; "SplitSDKMachineName" ]} /\
  (PostImpressions eventsClient send data sdkVersion machineIP).2 = send request.
Proof.
  unfold PostImpressions. rewrite strings_Replace_dots_dashes.
  set (request := Post _ _ _).
  assert (Hsent : (match send request with
                   | Some err => (request, Some err)
                   | None => (request, None)
                   end) = (request, send request)) by (by destruct (send request)).
  rewrite Hsent. subst request. simpl.
  split; [done|]. split; [done|].
  split; [by rewrite lookup_insert_ne, lookup_insert_ne, lookup_insert_eq|].
  split; [by rewrite lookup_insert_ne, lookup_insert_eq|].
  split; [by rewrite lookup_insert_eq|].
  split; [|done].
  rewrite !dom_insert_L, dom_empty_L. set_solver.
Qed.

Example PostImpressions_sample :
  requestHeaders
    (PostImpressions {| clientHeaders := {[ "Authorization" := "Bearer k" ]} |}
       (fun _ => None) "[]" "go-2.0.0" "192.168.0.7").1
  !! "SplitSDKMachineName" = Some "ip-192-168-0-7".
Proof. reflexivity. Qed.

End Api.

(** ** The events post task ([task], posting stored events) *)

Module EventsTask.

(** The metadata a stored event carries. *)
Record Metadata : Type := {
  SDKVersion : string;
  MachineIP : string;
  MachineName : string
}.

Section PostEvents.

(** [api.EventDTO], the event as it is posted; the task never looks
    into it. *)
Context {EventDTO : Type}.

Record StoredEvent : Type := {
  Event : EventDTO;
  EventMetadata : Metadata
}.

(** [toSend]: SDK version, then machine IP, then machine name. *)
Abbreviation bulks := (gmap string (gmap string (gmap string (list EventDTO)))).

(** Reading [toSend[sdk]], [toSend[sdk][ip]] and [toSend[sdk][ip][mname]]:
    a missing entry reads as the [nil] map or slice. *)
Definition bySDK (toSend : bulks) (sdk : string)
    : gmap string (gmap string (list EventDTO)) :=
  default ∅ (toSend !! sdk).

Definition byIP (toSend : bulks) (sdk ip : string) : gmap string (list EventDTO) :=
  default ∅ (bySDK toSend sdk !! ip).

Definition byName (toSend : bulks) (sdk ip mname : string) : option (list EventDTO) :=
  byIP toSend sdk ip !! mname.

(** Writing [toSend[sdk][ip][mname] = bulk]: the inner maps are shared
    by reference, so the write shows in [toSend]. *)
Definition setBulk (toSend : bulks) (sdk ip mname : string) (bulk : list EventDTO)
    : bulks :=
  <[sdk := <[ip := <[mname := bulk]> (byIP toSend sdk ip)]> (bySDK toSend sdk)]> toSend.

(** The body of the [for _, stored := range storedEvents] loop. *)
Definition groupStep (toSend : bulks) (stored : StoredEvent) : bulks :=
  if bool_decide (SDKVersion (EventMetadata stored) = "")
     || bool_decide (MachineIP (EventMetadata stored) = "")
  then toSend
  else
    let sdk := SDKVersion (EventMetadata stored) in
    let ip := MachineIP (EventMetadata stored) in
    let mname := MachineName (EventMetadata stored) in
    let mname := if bool_decide (mname = "") then "unknown" else mname in
    let toSend :=
      match toSend !! sdk with
      | None => <[sdk := ∅]> toSend
      | Some _ => toSend
      end in
    let toSend :=
      match bySDK toSend sdk !! ip with
      | None => <[sdk := <[ip := ∅]> (bySDK toSend sdk)]> toSend
      | Some _ => toSend
      end in
    let toSend :=
      match byName toSend sdk ip mname with
      | None => setBulk toSend sdk ip mname []
      | Some _ => toSend
      end in
    setBulk toSend sdk ip mname
      (default [] (byName toSend sdk ip mname) ++ [Event stored]).

(** A call [recorderAdapter.Post(bulk, s, i, n)]. *)
Definition PostCall : Type := list EventDTO * (string * string * string).

(** The three nested [range] loops over [toSend]. *)
Definition postAll (toSend : bulks) : list PostCall :=
  '(s, forSDK) ← map_to_list toSend;
  '(i, forIP) ← map_to_list forSDK;
  '(n, bulk) ← map_to_list forIP;
  [(bulk, (s, i, n))].

(** [taskPostEvents]: the calls of [recorderAdapter.Post] it makes, in
    the order of the iteration; [popped] is what [storageAdapter.PopN]
    returned.  The error a call returns is logged and nothing else. *)
Definition taskPostEvents (popped : error + list StoredEvent) : list PostCall :=
  match popped with
  | inl _ => []
  | inr storedEvents => postAll (foldl groupStep ∅ storedEvents)
  end.

(** The vocabulary of the claim: an event is kept when its SDK version
    and machine IP are not empty; its identity is its metadata triple
    with ["unknown"] for an empty machine name. *)
Definition kept (stored : StoredEvent) : Prop :=
  SDKVersion (EventMetadata stored) <> "" /\ MachineIP (EventMetadata stored) <> "".

Definition identity (stored : StoredEvent) : string * string * string :=
  (SDKVersion (EventMetadata stored),
   MachineIP (EventMetadata stored),
   if bool_decide (MachineName (EventMetadata stored) = "") then "unknown"
   else MachineName (EventMetadata stored)).

(** The events of a triple among the stored ones, in their order. *)
Definition eventsOf (triple : string * string * string)
    (storedEvents : list StoredEvent) : list EventDTO :=
  Event <$> filter (fun stored => kept stored /\ identity stored = triple) storedEvents.

(** *** Reading and writing the nested maps *)

Lemma byName_setBulk (toSend : bulks) (sdk ip mname : string) (bulk : list EventDTO)
    (s i n : string) :
  byName (setBulk toSend sdk ip mname bulk) s i n =
  if decide ((sdk, ip, mname) = (s, i, n)) then Some bulk else byName toSend s i n.
Proof.
  unfold byName, byIP, bySDK, setBulk.
  destruct (decide (sdk = s)) as [->|Hs].
  - rewrite lookup_insert_eq. simpl.
    destruct (decide (ip = i)) as [->|Hi].
    + rewrite lookup_insert_eq. simpl.
      destruct (decide (mname = n)) as [->|Hn].
      * rewrite lookup_insert_eq. by rewrite decide_True.
      * rewrite lookup_insert_ne by done. rewrite decide_False by congruence. done.
    + rewrite lookup_insert_ne by done. rewrite decide_False by congruence. done.
  - rewrite lookup_insert_ne by done. rewrite decide_False by congruence. done.
Qed.

Lemma byIP_make_sdk (toSend : bulks) (sdk s i : string) :
  toSend !! sdk = None -> byIP (<[sdk := ∅]> toSend) s i = byIP toSend s i.
Proof.
  intros Hnone. unfold byIP, bySDK.
  destruct (decide (sdk = s)) as [->|Hs].
  - by rewrite lookup_insert_eq, Hnone.
  - by rewrite lookup_insert_ne.
Qed.

Lemma byIP_make_ip (toSend : bulks) (sdk ip s i : string) :
  bySDK toSend sdk !! ip = None ->
  byIP (<[sdk := <[ip := ∅]> (bySDK toSend sdk)]> toSend) s i = byIP toSend s i.
Proof.
  intros Hnone. unfold byIP at 1. unfold bySDK at 1.
  destruct (decide (sdk = s)) as [->|Hs].
  - rewrite lookup_insert_eq. simpl.
    destruct (decide (ip = i)) as [->|Hi].
    + rewrite lookup_insert_eq. unfold byIP. by rewrite Hnone.
    + by rewrite lookup_insert_ne.
  - by rewrite lookup_insert_ne.
Qed.

(** What one turn of the loop does to the bulk of each triple. *)
Lemma groupStep_dropped (toSend : bulks) (stored : StoredEvent) :
  ~ kept stored -> groupStep toSend stored = toSend.
Proof.
  intros Hdrop. unfold groupStep, kept in *.
  destruct (decide (SDKVersion (EventMetadata stored) = "")) as [Hs|Hs].
  - by rewrite (bool_decide_eq_true_2 _ Hs).
  - destruct (decide (MachineIP (EventMetadata stored) = "")) as [Hi|Hi]; [|tauto].
    rewrite (bool_decide_eq_true_2 _ Hi). by rewrite orb_true_r.
Qed.

Lemma groupStep_kept (toSend : bulks) (stored : StoredEvent) (s i n : string) :
  kept stored ->
  byName (groupStep toSend stored) s i n =
  if decide (identity stored = (s, i, n))
  then Some (default [] (byName toSend s i n) ++ [Event stored])
  else byName toSend s i n.
Proof.
  intros [Hs Hi]. unfold groupStep, identity.
  rewrite (bool_decide_eq_false_2 _ Hs), (bool_decide_eq_false_2 _ Hi). simpl.
  set (sdk := SDKVersion (EventMetadata stored)).
  set (ip := MachineIP (EventMetadata stored)).
  set (mname := if bool_decide (MachineName (EventMetadata stored) = "")
                then "unknown" else MachineName (EventMetadata stored)).
  set (T1 := match toSend !! sdk with None => <[sdk := ∅]> toSend | Some _ => toSend end).
  set (T2 := match bySDK T1 sdk !! ip with
             | None => <[sdk := <[ip := ∅]> (bySDK T1 sdk)]> T1
             | Some _ => T1
             end).
  set (T3 := match byName T2 sdk ip mname with
             | None => setBulk T2 sdk ip mname []
             | Some _ => T2
             end).
  assert (H1 : forall s' i', byIP T1 s' i' = byIP toSend s' i').
  { intros s' i'. subst T1. destruct (toSend !! sdk) eqn:Hl; [done|].
    by apply byIP_make_sdk. }
  assert (H2 : forall s' i', byIP T2 s' i' = byIP toSend s' i').
  { intros s' i'. rewrite <- H1. subst T2.
    destruct (bySDK T1 sdk !! ip) eqn:Hl; [done|]. by apply byIP_make_ip. }
  assert (H3 : forall s' i' n', byName T2 s' i' n' = byName toSend s' i' n').
  { intros s' i' n'. unfold byName. by rewrite H2. }
  assert (H4 : default [] (byName T3 sdk ip mname)
               = default [] (byName toSend sdk ip mname)).
  { subst T3. destruct (byName T2 sdk ip mname) as [b|] eqn:Hl.
    - by rewrite <- H3, Hl.
    - rewrite byName_setBulk, decide_True by done. by rewrite <- H3, Hl. }
  rewrite byName_setBulk, H4.
  destruct (decide ((sdk, ip, mname) = (s, i, n))) as [Heq|Hne]; [by injection Heq as <- <- <-|].
  subst T3. destruct (byName T2 sdk ip mname) eqn:Hl.
  - apply H3.
  - rewrite byName_setBulk, decide_False by done. apply H3.
Qed.

Lemma eventsOf_snoc (triple : string * string * string)
    (storedEvents : list StoredEvent) (stored : StoredEvent) :
  eventsOf triple (storedEvents ++ [stored]) =
  eventsOf triple storedEvents ++
  (if decide (kept stored /\ identity stored = triple) then [Event stored] else []).
Proof.
  unfold eventsOf. rewrite filter_app, fmap_app. f_equal.
  rewrite filter_cons, filter_nil. by case_decide.
Qed.

(** The loop invariant: the bulk stored under a triple is the list of
    the kept events of that triple, and there is none when that list is
    empty. *)
Lemma grouping_invariant (storedEvents : list StoredEvent) (s i n : string) :
  byName (foldl groupStep ∅ storedEvents) s i n =
  match eventsOf (s, i, n) storedEvents with
  | [] => None
  | bulk => Some bulk
  end.
Proof.
  induction storedEvents as [|stored storedEvents IH] using rev_ind; [done|].
  rewrite foldl_snoc, eventsOf_snoc.
  destruct (decide (kept stored)) as [Hk|Hk].
  - rewrite groupStep_kept by done. rewrite IH.
    destruct (decide (identity stored = (s, i, n))) as [Hid|Hid].
    + rewrite decide_True by done.
      destruct (eventsOf (s, i, n) storedEvents); done.
    + rewrite decide_False by tauto. by rewrite app_nil_r.
  - rewrite groupStep_dropped by done. rewrite decide_False by tauto.
    by rewrite app_nil_r.
Qed.

(** *** The posts *)

Lemma elem_of_postAll (toSend : bulks) (bulk : list EventDTO) (s i n : string) :
  (bulk, (s, i, n)) ∈ postAll toSend <-> byName toSend s i n = Some bulk.
Proof.
  unfold postAll, byName, byIP, bySDK. rewrite list_elem_of_bind. split.
  - intros [[s' forSDK] [Hin Hs]]. apply elem_of_map_to_list in Hs.
    apply list_elem_of_bind in Hin as [[i' forIP] [Hin Hi]].
    apply elem_of_map_to_list in Hi.
    apply list_elem_of_bind in Hin as [[n' bulk'] [Hin Hn]].
    apply elem_of_map_to_list in Hn.
    apply list_elem_of_singleton in Hin. injection Hin as -> -> -> ->.
    rewrite Hs. simpl. rewrite Hi. done.
  - intros Hl.
    destruct (toSend !! s) as [forSDK|] eqn:Hs; simpl in Hl; [|done].
    destruct (forSDK !! i) as [forIP|] eqn:Hi; simpl in Hl; [|done].
    exists (s, forSDK). split; [|by apply elem_of_map_to_list].
    apply list_elem_of_bind. exists (i, forIP).
    split; [|by apply elem_of_map_to_list].
    apply list_elem_of_bind. exists (n, bulk).
    split; [|by apply elem_of_map_to_list].
    by apply list_elem_of_singleton.
Qed.

Lemma NoDup_postAll (toSend : bulks) : NoDup (postAll toSend).
Proof.
  unfold postAll. apply NoDup_bind; [| |apply NoDup_map_to_list].
  - intros [s1 m1] [s2 m2] [bulk [[s i] n]] H1 H2 Hy1 Hy2.
    apply elem_of_map_to_list in H1, H2.
    apply list_elem_of_bind in Hy1 as [[i1 f1] [Hy1 _]].
    apply list_elem_of_bind in Hy1 as [[n1 b1] [Hy1 _]].
    apply list_elem_of_singleton in Hy1.
    apply list_elem_of_bind in Hy2 as [[i2 f2] [Hy2 _]].
    apply list_elem_of_bind in Hy2 as [[n2 b2] [Hy2 _]].
    apply list_elem_of_singleton in Hy2.
    simplify_eq. done.
  - intros [s forSDK] _. apply NoDup_bind; [| |apply NoDup_map_to_list].
    + intros [i1 m1] [i2 m2] [bulk [[s' i] n]] H1 H2 Hy1 Hy2.
      apply elem_of_map_to_list in H1, H2.
      apply list_elem_of_bind in Hy1 as [[n1 b1] [Hy1 _]].
      apply list_elem_of_singleton in Hy1.
      apply list_elem_of_bind in Hy2 as [[n2 b2] [Hy2 _]].
      apply list_elem_of_singleton in Hy2.
      simplify_eq. done.
    + intros [i forIP] _. apply NoDup_bind; [| |apply NoDup_map_to_list].
      * intros [n1 b1] [n2 b2] y H1 H2 Hy1 Hy2.
        apply elem_of_map_to_list in H1, H2.
        apply list_elem_of_singleton in Hy1, Hy2.
        simplify_eq. done.
      * intros [n bulk] _. apply NoDup_singleton.
Qed.

(** C7.  Of a drained batch, the task posts the events whose SDK version
    and machine IP are both non-empty, with ["unknown"] standing for an
    empty machine name: no two POSTs carry the same (sdkVersion,
    machineIP, machineName) triple; the bulk of a POST is not empty and
    is exactly the list of the kept events of its triple (so a dropped
    event is in no POST); and every kept event is in the POST of its
    triple.  When [PopN] fails nothing is posted. *)
Theorem taskPostEvents_groups (storedEvents : list StoredEvent) :
  let posts := taskPostEvents (inr storedEvents) in
  NoDup posts.*2 /\
  (forall bulk triple,
     (bulk, triple) ∈ posts ->
     bulk <> [] /\ bulk = eventsOf triple storedEvents) /\
  (forall stored,
     stored ∈ storedEvents -> kept stored ->
     (eventsOf (identity stored) storedEvents, identity stored) ∈ posts /\
     Event stored ∈ eventsOf (identity stored) storedEvents) /\
  (forall err, taskPostEvents (inl err) = []).
Proof.
  simpl.
  assert (Hpost : forall bulk triple,
            (bulk, triple) ∈ postAll (foldl groupStep ∅ storedEvents) <->
            bulk <> [] /\ bulk = eventsOf triple storedEvents).
  { intros bulk [[s i] n]. rewrite elem_of_postAll, grouping_invariant.
    destruct (eventsOf (s, i, n) storedEvents) as [|ev evs].
    - split; [done | by intros [Hne ->]].
    - split; [by intros [= <-] | by intros [_ ->]]. }
  split; [|split; [|split]].
  - apply NoDup_fmap_2_strong; [|apply NoDup_postAll].
    intros [b1 t1] [b2 t2] H1%Hpost H2%Hpost Heq. simpl in Heq.
    destruct H1 as [_ ->], H2 as [_ ->]. by subst.
  - intros bulk triple. apply Hpost.
  - intros stored Hin Hk.
    assert (Hev : Event stored ∈ eventsOf (identity stored) storedEvents).
    { unfold eventsOf. apply list_elem_of_fmap. exists stored. split; [done|].
      by apply list_elem_of_filter. }
    split; [|done]. apply Hpost. split; [|done].
    intros Hnil. rewrite Hnil in Hev. by apply elem_of_nil in Hev.
  - done.
Qed.

End PostEvents.

(** Five stored events from two machines; one has no SDK version and
    one no machine name. *)
Definition sampleEvents : list (@StoredEvent string) :=
  [ {| Event := "e1";
       EventMetadata := {| SDKVersion := "go-1"; MachineIP := "10.0.0.1"; MachineName := "a" |} |};
    {| Event := "e2";
       EventMetadata := {| SDKVersion := ""; MachineIP := "10.0.0.1"; MachineName := "a" |} |};
    {| Event := "e3";
       EventMetadata := {| SDKVersion := "go-1"; MachineIP := "10.0.0.2"; MachineName := "" |} |};
    {| Event := "e4";
       EventMetadata := {| SDKVersion := "go-1"; MachineIP := "10.0.0.1"; MachineName := "a" |} |};
    {| Event := "e5";
       EventMetadata := {| SDKVersion := "go-1"; MachineIP := "10.0.0.2"; MachineName := "unknown" |} |} ].

Example taskPostEvents_sample :
  taskPostEvents (inr sampleEvents) ≡ₚ
  [ (["e1"; "e4"], ("go-1", "10.0.0.1", "a"));
    (["e3"; "e5"], ("go-1", "10.0.0.2", "unknown")) ].
Proof. vm_compute. reflexivity. Qed.

End EventsTask.

(** ** The proxy split storage ([proxy/storage/splits.go]) *)

Module ProxyStorage.

(** [dtos.SplitDTO], with the targeting rules left out. *)
Record SplitDTO : Type := {
  Name : string;
  TrafficTypeName : string;
  Status : string;
  ChangeNumber : Z;
  Killed : bool;
  DefaultTreatment : string
}.

(** [dtos.SplitChangesDTO], the payload of [/splitChanges]. *)
Record SplitChangesDTO : Type := {
  Since : Z;
  Till : Z;
  Splits : list SplitDTO
}.

(** [optimized.ChangeSummary]: the names to update and the names to
    remove, each with its traffic type. *)
Record ChangeSummary : Type := {
  Updated : gmap string string;
  Removed : gmap string string
}.

(** [mutexmap.MMSplitStorage] of the commons library, as far as the proxy
    storage reads it: the splits by name and the change number. *)
Record MMSplitStorage : Type := {
  data : gmap string SplitDTO;
  till : Z
}.

Definition snapshot_ChangeNumber (s : MMSplitStorage) : Z * option error :=
  (till s, None).

Definition snapshot_All (s : MMSplitStorage) : list SplitDTO :=
  (map_to_list (data s)).*2.

(** [FetchMany] answers every requested name, with a [nil] pointer,
    [None], for a name the snapshot does not hold. *)
Definition snapshot_FetchMany (s : MMSplitStorage) (names : list string)
    : gmap string (option SplitDTO) :=
  foldl (fun splits name => <[name := data s !! name]> splits) ∅ names.

(** Modelled from the spec: [optimized.SplitChangesSummaries], the recipe
    cache, whose source is not part of this development.  It retains
    one recipe per change number of a bounded window, and it keeps the
    payloads registered for older change numbers. *)
Record SplitChangesSummaries : Type := {
  retained : gmap Z ChangeSummary;
  registeredOlder : list SplitChangesDTO
}.

(** The retained change numbers in ascending order. *)
Definition retainedCNs (r : SplitChangesSummaries) : list Z :=
  merge_sort Z.le (map_to_list (retained r)).*1.


(** The union of the recipes newer than [since]: a name is updated when
    its latest recipe updates it and removed when its latest recipe
    removes it. *)
Definition applyRecipe (acc : ChangeSummary) (recipe : ChangeSummary) : ChangeSummary :=
  {| Updated := Updated recipe ∪ (Updated acc ∖ Removed recipe);
     Removed := Removed recipe ∪ (Removed acc ∖ Updated recipe) |}.

Definition summarySince (r : SplitChangesSummaries) (since : Z) : ChangeSummary :=
  foldl
    (fun acc cn =>
       if since <? cn then
         match retained r !! cn with
         | Some recipe => applyRecipe acc recipe
         | None => acc
         end
       else acc)
    {| Updated := ∅; Removed := ∅ |}
    (retainedCNs r).

(** Modelled from the spec: [SplitChangesSummaries.FetchSince].  A query
    older than the oldest retained recipe fails with
    [ErrSummaryNotCached] (as does any query on a cache that retains
    nothing); otherwise the summary is the union of the recipes newer
    than [since] and [till] is the largest retained change number. *)
Definition FetchSince (r : SplitChangesSummaries) (since : Z)
    : error + ChangeSummary * Z :=
  match retainedCNs r with
  | [] => inl ErrSummaryNotCached
  | oldest :: newer =>
      if since <? oldest then inl ErrSummaryNotCached
      else inr (summarySince r since, List.last newer oldest)
  end.

(** Modelled from the spec: registering the payload fetched for an older
    change number in the recipe cache. *)
Definition registerOlder (r : SplitChangesSummaries) (payload : SplitChangesDTO)
    : SplitChangesSummaries :=
  {| retained := retained r;
     registeredOlder := registeredOlder r ++ [payload] |}.

Section Storage.

(** [optimized.BuildArchivedSplitsFor], which builds a tombstone for each
    removed name; its source is not part of this development and the
    specification leaves the fields of a tombstone open. *)
Variable BuildArchivedSplitsFor : gmap string string -> list SplitDTO.

(** [ProxySplitStorageImpl], without the persistent collection and the
    mutex. *)
Record ProxySplitStorageImpl : Type := {
  snapshot : MMSplitStorage;
  recipes : SplitChangesSummaries
}.

(** Dereferencing the pointers of [active]: a [nil] among them is a
    run-time panic, [None]. *)
Definition derefAll (active : gmap string (option SplitDTO)) : option (list SplitDTO) :=
  mapM id (map_to_list active).*2.

(** [ChangesSince]; the outer [None] is a panic. *)
Definition ChangesSince (p : ProxySplitStorageImpl) (since : Z)
    : option (error + SplitChangesDTO) :=
  if since =? -1 then
    match snapshot_ChangeNumber (snapshot p) with
    | (cn, Some err) =>
        Some (inl (Wrapped "error fetching changeNumber from snapshot" err))
    | (cn, None) =>
        let all := snapshot_All (snapshot p) in
        Some (inr {| Since := since; Till := cn; Splits := all |})
    end
  else
    match FetchSince (recipes p) since with
    | inl err =>
        if errors_Is err ErrSummaryNotCached then Some (inl ErrSummaryNotCached)
        else Some (inl (Wrapped "unexpected error when fetching changes summary" err))
    | inr (summary, till) =>
        let splitNames := (map_to_list (Updated summary)).*1 in
        let active := snapshot_FetchMany (snapshot p) splitNames in
        all ← derefAll active;
        let all := all ++ BuildArchivedSplitsFor (Removed summary) in
        Some (inr {| Since := since; Till := till; Splits := all |})
    end.

(** [RegisterOlderCn], the method the controller calls after it fetched
    the payload for an older change number from upstream. *)
Definition RegisterOlderCn (p : ProxySplitStorageImpl) (payload : SplitChangesDTO)
    : ProxySplitStorageImpl :=
  {| snapshot := snapshot p;
     recipes := registerOlder (recipes p) payload |}.

(** *** The recipe window *)

Lemma retainedCNs_oldest (r : SplitChangesSummaries) (oldest : Z) :
  head (retainedCNs r) = Some oldest ->
  oldest ∈ dom (retained r) /\ forall cn, cn ∈ dom (retained r) -> oldest <= cn.
Proof.
  intros Hhead. unfold retainedCNs in Hhead.
  set (cns := merge_sort Z.le (map_to_list (retained r)).*1) in *.
  assert (Hin : forall cn, cn ∈ cns <-> cn ∈ dom (retained r)).
  { intros cn. subst cns. rewrite merge_sort_Permutation, elem_of_dom, list_elem_of_fmap.
    split.
    - intros [[cn' recipe] [-> Hin]]. apply elem_of_map_to_list in Hin. by exists recipe.
    - intros [recipe Hl]. exists (cn, recipe). split; [done|].
      by apply elem_of_map_to_list. }
  assert (Hsorted : StronglySorted Z.le cns)
    by (apply StronglySorted_merge_sort; apply _).
  destruct cns as [|first rest]; [done|]. injection Hhead as ->.
  split; [apply Hin, list_elem_of_here|].
  intros cn [->|Hrest]%Hin%elem_of_cons; [lia|].
  apply StronglySorted_cons in Hsorted as [Hall _].
  by apply (proj1 (Forall_forall _ _) Hall).
Qed.



(** With [since = -1] the whole snapshot is returned, whatever the
    recipes retain. *)
Lemma ChangesSince_all (p : ProxySplitStorageImpl) :
  ChangesSince p (-1) =
  Some (inr {| Since := -1; Till := till (snapshot p);
               Splits := snapshot_All (snapshot p) |}).
Proof. reflexivity. Qed.

End Storage.

(** A storage that holds one split and retains the recipe of its change
    number only. *)
Definition sampleSplit : SplitDTO :=
  {| Name := "A"; TrafficTypeName := "user"; Status := "ACTIVE";
     ChangeNumber := 10; Killed := false; DefaultTreatment := "off" |}.

Definition sampleStorage : ProxySplitStorageImpl :=
  {| snapshot := {| data := {[ "A" := sampleSplit ]}; till := 10 |};
     recipes :=
       {| retained :=
            {[ 10 := {| Updated := {[ "A" := "user" ]}; Removed := ∅ |} ]};
          registeredOlder := [] |} |}.

(** Tombstones as the specification describes them, with the change
    number left at zero. *)
Definition sampleTombstones (removed : gmap string string) : list SplitDTO :=
  (fun '(name, trafficType) =>
     {| Name := name; TrafficTypeName := trafficType; Status := "ARCHIVED";
        ChangeNumber := 0; Killed := false; DefaultTreatment := "" |})
  <$> map_to_list removed.

Example ChangesSince_sample_current :
  ChangesSince sampleTombstones sampleStorage 10
  = Some (inr {| Since := 10; Till := 10; Splits := [] |}).
Proof. vm_compute. reflexivity. Qed.

Example ChangesSince_sample_older :
  ChangesSince sampleTombstones sampleStorage 1 = Some (inl ErrSummaryNotCached).
Proof. vm_compute. reflexivity. Qed.


End ProxyStorage.

(** ** The SDK server controller ([proxy/controllers/sdk.go]) *)

Module SdkController.

Import GoStd ProxyStorage.

(** The HTTP status codes the handlers use. *)
Definition StatusOK : Z := 200.
Definition StatusNotFound : Z := 404.
Definition StatusInternalServerError : Z := 500.

Section Controller.

(** The endpoint identifiers of the telemetry, constants of the storage
    package. *)
Variables SplitChangesEndpoint SegmentChangesEndpoint : Z.

Variable BuildArchivedSplitsFor : gmap string string -> list SplitDTO.

(** [c.fetcher.Fetch(since, cacheControl)], the upstream fetch. *)
Variable Fetch : Z -> bool -> error + SplitChangesDTO.

(** [c.proxySegmentStorage.ChangesSince(name, since)], whose source is not
    part of this development, and the payload it returns. *)
Context {SegmentChangesDTO : Type}.
Variable SegmentChangesSince : string -> Z -> error + SegmentChangesDTO.

(** What a call leaves behind: the storage, the upstream fetches made
    and the status codes recorded in the endpoint telemetry, each in the
    order of the calls. *)
Record Effects : Type := {
  storage : ProxySplitStorageImpl;
  upstreamFetches : list (Z * bool);
  endpointStatuses : list (Z * Z)
}.

(** [fetchSplitChangesSince]; the outer [None] is a panic of the
    storage. *)
Definition fetchSplitChangesSince (p : ProxySplitStorageImpl) (since : Z)
    : option ((error + SplitChangesDTO) * Effects) :=
  r ← ChangesSince BuildArchivedSplitsFor p since;
  match r with
  | inr splits =>
      Some (inr splits,
            {| storage := p; upstreamFetches := []; endpointStatuses := [] |})
  | inl err =>
      if negb (errors_Is err ErrSummaryNotCached) then
        Some (inl (Wrapped "unexpected error fetching split changes from storage" err),
              {| storage := p; upstreamFetches := []; endpointStatuses := [] |})
      else
        match Fetch since true with
        | inr splits =>
            Some (inr splits,
                  {| storage := RegisterOlderCn p splits;
                     upstreamFetches := [(since, true)];
                     endpointStatuses := [] |})
        | inl err =>
            Some (inl (Wrapped "unexpected error fetching split changes from storage" err),
                  {| storage := p;
                     upstreamFetches := [(since, true)];
                     endpointStatuses := [] |})
        end
  end.

(** The response a handler writes: the status code and the body. *)
Inductive Response : Type :=
  | SplitChangesBody (status : Z) (splits : SplitChangesDTO)
  | SegmentChangesBody (status : Z) (payload : SegmentChangesDTO)
  | ErrorBody (status : Z) (err : error).

(** The [since] a handler works with: [strconv.ParseInt] of the query
    parameter, which defaults to ["-1"], and [-1] when that fails. *)
Definition sinceOf (sinceQuery : option string) : Z :=
  match ParseInt10 (DefaultQuery sinceQuery "-1") 64 with
  | inr since => since
  | inl _ => -1
  end.

(** [SplitChanges]; [sinceQuery] is the [since] parameter of the request,
    [None] when the request has none. *)
Definition SplitChanges (p : ProxySplitStorageImpl) (sinceQuery : option string)
    : option (Response * Effects) :=
  let since := sinceOf sinceQuery in
  '(r, effects) ← fetchSplitChangesSince p since;
  match r with
  | inl err =>
      Some (ErrorBody StatusInternalServerError err,
            {| storage := storage effects;
               upstreamFetches := upstreamFetches effects;
               endpointStatuses := [(SplitChangesEndpoint, StatusInternalServerError)] |})
  | inr splits =>
      Some (SplitChangesBody StatusOK splits,
            {| storage := storage effects;
               upstreamFetches := upstreamFetches effects;
               endpointStatuses := [(SplitChangesEndpoint, StatusOK)] |})
  end.

(** [SegmentChanges]. *)
Definition SegmentChanges (p : ProxySplitStorageImpl) (segmentName : string)
    (sinceQuery : option string) : Response * Effects :=
  let since := sinceOf sinceQuery in
  match SegmentChangesSince segmentName since with
  | inl err =>
      (ErrorBody StatusNotFound err,
       {| storage := p; upstreamFetches := [];
          endpointStatuses := [(SegmentChangesEndpoint, StatusNotFound)] |})
  | inr payload =>
      (SegmentChangesBody StatusOK payload,
       {| storage := p; upstreamFetches := [];
          endpointStatuses := [(SegmentChangesEndpoint, StatusOK)] |})
  end.


End Controller.

(** An upstream that answers every fetch with one archived split. *)
Definition sampleFetch (since : Z) (cacheControl : bool) : error + SplitChangesDTO :=
  inr {| Since := since; Till := 10;
         Splits := [ {| Name := "B"; TrafficTypeName := "user"; Status := "ARCHIVED";
                        ChangeNumber := 7; Killed := false; DefaultTreatment := "off" |} ] |}.

Definition sampleSegments (name : string) (since : Z) : error + Z :=
  if String.eqb name "employees" then inr since else inl ErrorBucketNotFound.


End SdkController.

(** ** The handlers of the database-backed proxy ([proxy/controllers.go]) *)

Module LegacyHandlers.

Import GoStd LegacyProxy.

(** The JSON a handler answers with, and the counters it increments. *)
Inductive Response : Type :=
  | SplitChangesBody (splits : list string) (since till : Z)
  | SegmentChangesBody (name : string) (added removed : list string) (since till : Z)
  | ErrorBody (err : error).

(** The [since] a handler works with: [strconv.Atoi] of the query
    parameter, which defaults to ["-1"], and [-1] when that fails. *)
Definition sinceOf (sinceQuery : option string) : Z :=
  match Atoi (DefaultQuery sinceQuery "-1") with
  | inr since => since
  | inl _ => -1
  end.

(** [splitChanges]; [fetched] is the answer of the split collection. *)
Definition splitChanges (sinceQuery : option string)
    (fetched : error + list SplitChangesItem) : Response * list string :=
  let since := sinceOf sinceQuery in
  match fetchSplitsFromDB since fetched with
  | (_, _, Some errf) =>
      (ErrorBody errf,
       ["splitChangeFetcher.status.500"; "splitChangeFetcher.exception"])
  | (splits, till, None) =>
      (SplitChangesBody splits since till, ["splitChangeFetcher.status.200"])
  end.

(** [segmentChanges]; [fetched] is the answer of the segment collection
    for [segmentName]. *)
Definition segmentChanges (segmentName : string) (sinceQuery : option string)
    (fetched : error + SegmentChangesItem) : Response * list string :=
  let since := sinceOf sinceQuery in
  match fetchSegmentsFromDB since fetched with
  | (_, _, _, Some errf) =>
      (ErrorBody errf,
       ["segmentChangeFetcher.status.500"; "segmentChangeFetcher.exception"])
  | (added, removed, till, None) =>
      (SegmentChangesBody segmentName added removed since till,
       ["segmentChangeFetcher.status.200"])
  end.

End LegacyHandlers.

(** ** The [since] parameter of the change endpoints *)

Module SinceParameter.

Import GoStd ProxyStorage.

(** The [since] parameter is absent, or it is present and does not parse
    as a base-10 64-bit integer. *)
Definition unparseable (sinceQuery : option string) : Prop :=
  sinceQuery = None \/
  exists value err, sinceQuery = Some value /\ ParseInt10 value 64 = inl err.

Lemma sdk_sinceOf_unparseable (sinceQuery : option string) :
  unparseable sinceQuery ->
  SdkController.sinceOf sinceQuery = SdkController.sinceOf (Some "-1").
Proof.
  intros [->|(value & err & -> & Herr)]; [done|].
  unfold SdkController.sinceOf. simpl. by rewrite Herr.
Qed.

Lemma legacy_sinceOf_unparseable (sinceQuery : option string) :
  unparseable sinceQuery ->
  LegacyHandlers.sinceOf sinceQuery = LegacyHandlers.sinceOf (Some "-1").
Proof.
  intros [->|(value & err & -> & Herr)]; [done|].
  unfold LegacyHandlers.sinceOf, Atoi, IntSize. simpl. by rewrite Herr.
Qed.

Section Handlers.

Variables SplitChangesEndpoint SegmentChangesEndpoint : Z.
Variable BuildArchivedSplitsFor : gmap string string -> list SplitDTO.
Variable Fetch : Z -> bool -> error + SplitChangesDTO.
Context {SegmentChangesDTO : Type}.
Variable SegmentChangesSince : string -> Z -> error + SegmentChangesDTO.

(** C9.  When the [since] parameter of a request is absent or does not
    parse, each of the four change handlers (the controller's
    [SplitChanges] and [SegmentChanges], the database-backed
    [splitChanges] and [segmentChanges]) answers, and acts on the
    storage, upstream and telemetry, exactly as it does for
    [since=-1]: the parse error reaches neither the response nor the
    caller. *)
Theorem unparseable_since_is_minus_one (sinceQuery : option string)
    (p : ProxySplitStorageImpl) (segmentName : string)
    (fetchedSplits : error + list LegacyProxy.SplitChangesItem)
    (fetchedSegment : error + LegacyProxy.SegmentChangesItem) :
  unparseable sinceQuery ->
  SdkController.sinceOf sinceQuery = -1 /\
  LegacyHandlers.sinceOf sinceQuery = -1 /\
  SdkController.SplitChanges SplitChangesEndpoint BuildArchivedSplitsFor Fetch
    (SegmentChangesDTO := SegmentChangesDTO) p sinceQuery
  = SdkController.SplitChanges SplitChangesEndpoint BuildArchivedSplitsFor Fetch
      p (Some "-1") /\
  SdkController.SegmentChanges SegmentChangesEndpoint SegmentChangesSince
    p segmentName sinceQuery
  = SdkController.SegmentChanges SegmentChangesEndpoint SegmentChangesSince
      p segmentName (Some "-1") /\
  LegacyHandlers.splitChanges sinceQuery fetchedSplits
  = LegacyHandlers.splitChanges (Some "-1") fetchedSplits /\
  LegacyHandlers.segmentChanges segmentName sinceQuery fetchedSegment
  = LegacyHandlers.segmentChanges segmentName (Some "-1") fetchedSegment.
Proof.
  intros Hq.
  pose proof (sdk_sinceOf_unparseable _ Hq) as Hsdk.
  pose proof (legacy_sinceOf_unparseable _ Hq) as Hlegacy.
  split; [by rewrite Hsdk|]. split; [by rewrite Hlegacy|].
  unfold SdkController.SplitChanges, SdkController.SegmentChanges,
    LegacyHandlers.splitChanges, LegacyHandlers.segmentChanges.
  by rewrite Hsdk, Hlegacy.
Qed.

End Handlers.

Lemma unparseable_since_is_minus_one_witness :
  SdkController.sinceOf (Some "12a") = -1 /\
  LegacyHandlers.sinceOf (Some "12a") = -1 /\
  SdkController.SplitChanges 1 sampleTombstones SdkController.sampleFetch
    (SegmentChangesDTO := Z) sampleStorage (Some "12a")
  = SdkController.SplitChanges 1 sampleTombstones SdkController.sampleFetch
      sampleStorage (Some "-1") /\
  SdkController.SegmentChanges 2 SdkController.sampleSegments
    sampleStorage "employees" (Some "12a")
  = SdkController.SegmentChanges 2 SdkController.sampleSegments
      sampleStorage "employees" (Some "-1") /\
  LegacyHandlers.splitChanges (Some "12a") (inr LegacyProxy.sampleSplits)
  = LegacyHandlers.splitChanges (Some "-1") (inr LegacyProxy.sampleSplits) /\
  LegacyHandlers.segmentChanges "employees" (Some "12a") (inr LegacyProxy.sampleSegment)
  = LegacyHandlers.segmentChanges "employees" (Some "-1") (inr LegacyProxy.sampleSegment).
Proof.
  apply (unparseable_since_is_minus_one 1 2 sampleTombstones SdkController.sampleFetch
           SdkController.sampleSegments (Some "12a") sampleStorage "employees"
           (inr LegacyProxy.sampleSplits) (inr LegacyProxy.sampleSegment)).
  right. exists "12a", ErrSyntax. split; reflexivity.
Defined.

Example splitChanges_without_since :
  LegacyHandlers.splitChanges None (inr LegacyProxy.sampleSplits)
  = (LegacyHandlers.SplitChangesBody ["{a}"; "{b}"] (-1) 9,
     ["splitChangeFetcher.status.200"]).
Proof. reflexivity. Qed.

End SinceParameter.

(** ** The impressions recorder ([producer/worker/impression.go]) *)

Module ImpressionWorker.

(** [dtos.Metadata], the origin of a batch of impressions. *)
Record Metadata : Type := {
  SDKVersion : string;
  MachineIP : string;
  MachineName : string
}.

(** The kinds of operation the gate of the [task] package knows. *)
Inductive Operation : Type :=
  | SplitsOperation
  | SegmentsOperation
  | ImpressionsOperation
  | EventsOperation
  | TelemetryOperation.

#[global] Instance Operation_eq_dec : EqDecision Operation.
Proof. solve_decision. Defined.

(** Modelled from the spec: the operation gate of the [task] package
    ([IsOperationRunning], [RequestOperation], [FinishOperation]), whose
    source is not part of this development.  The gate tells for each
    kind whether an operation of that kind is running; a request takes
    the kind when it is free and is denied otherwise; finishing
    releases it. *)
Definition Gate : Type := Operation -> bool.

Definition IsOperationRunning (g : Gate) (kind : Operation) : bool := g kind.

Definition RequestOperation (g : Gate) (kind : Operation) : bool * Gate :=
  if g kind then (false, g)
  else (true, fun k => if decide (k = kind) then true else g k).

Definition FinishOperation (g : Gate) (kind : Operation) : Gate :=
  fun k => if decide (k = kind) then false else g k.

(** What the recorder reports to the runtime telemetry. *)
Inductive TelemetryEvent : Type :=
  | SyncError (code : Z)
  | SyncLatency
  | SuccessfulSync.

(** [commonToolkit.WithAttempts] of the toolkit library: run [main] until
    it returns no error, [attempts] times at most, and return the error
    of the last run. *)
Fixpoint WithAttempts {S : Type} (attempts : nat) (main : S -> option error * S)
    (s : S) : option error * S :=
  match attempts with
  | O => (None, s)
  | S remaining =>
      match main s with
      | (None, s') => (None, s')
      | (Some err, s') =>
          match remaining with
          | O => (Some err, s')
          | S _ => WithAttempts remaining main s'
          end
      end
  end.

(** [task.ImpressionBulk], what is queued for the listener: the encoded
    impressions and the metadata of their origin. *)
Record ImpressionBulk : Type := {
  Data : string;
  SdkVersion : string;
  BulkMachineIP : string;
  BulkMachineName : string
}.

Section Recorder.

(** The impressions as stored, as posted and as handed to the listener,
    the storage they are popped from and the impression manager: types
    of the commons library and of packages of this repository that are
    not part of this development. *)
Context {StoredImpression ImpressionsDTO ImpressionsListener Queue Manager : Type}.

(** [impressionStorage.Count()] and [impressionStorage.PopNWithMetadata]. *)
Variable Count : Queue -> Z.
Variable PopNWithMetadata :
  Z -> Queue -> error + (list StoredImpression * Queue).

(** The grouping [fetch] does with [ProcessImpressions], [wrapData] and
    [wrapDTO]: from the popped impressions, the batches to post and the
    batches for the listener, by metadata. *)
Variable collect :
  Manager -> list StoredImpression ->
  Manager * list (Metadata * list ImpressionsDTO)
          * list (Metadata * list ImpressionsListener).

(** [impressionRecorder.Record]: the answer of upstream to a POST, which
    may change from one call to the next; the first argument is the
    number of calls made before. *)
Variable upstream : nat -> list ImpressionsDTO -> Metadata -> option error.

(** The configuration of the recorder and the constants of the [splitio]
    package. *)
Variable impressionListenerEnabled : bool.
Variable producerMode : bool.
Variables MaxSizeToFlush DefaultSize : Z.

(** [json.Marshal] of a batch for the listener: the encoding, or the
    error of an encoding that fails. *)
Variable json_Marshal : list ImpressionsListener -> error + string.

(** Whether the listener queue of the [task] package, holding what it
    holds, refuses a bulk, and with which error. *)
Variable listenerRefuses : list ImpressionBulk -> ImpressionBulk -> option error.

(** The state the recorder works on. *)
Record World : Type := {
  running : Gate;
  impressionStorage : Queue;
  impressionManager : Manager;
  recordCalls : list (Metadata * list ImpressionsDTO);
  localTelemetry : list TelemetryEvent;
  dataFlushed : list (Z * Z);
  errorsLogged : list string;
  listenerQueue : list ImpressionBulk
}.

Definition setRunning (w : World) (g : Gate) : World :=
  {| running := g;
     impressionStorage := impressionStorage w;
     impressionManager := impressionManager w;
     recordCalls := recordCalls w;
     localTelemetry := localTelemetry w;
     dataFlushed := dataFlushed w;
     errorsLogged := errorsLogged w;
     listenerQueue := listenerQueue w |}.

Definition setFetched (w : World) (q : Queue) (m : Manager) : World :=
  {| running := running w;
     impressionStorage := q;
     impressionManager := m;
     recordCalls := recordCalls w;
     localTelemetry := localTelemetry w;
     dataFlushed := dataFlushed w;
     errorsLogged := errorsLogged w;
     listenerQueue := listenerQueue w |}.

Definition addRecordCall (w : World) (metadata : Metadata)
    (impressions : list ImpressionsDTO) : World :=
  {| running := running w;
     impressionStorage := impressionStorage w;
     impressionManager := impressionManager w;
     recordCalls := recordCalls w ++ [(metadata, impressions)];
     localTelemetry := localTelemetry w;
     dataFlushed := dataFlushed w;
     errorsLogged := errorsLogged w;
     listenerQueue := listenerQueue w |}.

Definition addTelemetry (w : World) (events : list TelemetryEvent) : World :=
  {| running := running w;
     impressionStorage := impressionStorage w;
     impressionManager := impressionManager w;
     recordCalls := recordCalls w;
     localTelemetry := localTelemetry w ++ events;
     dataFlushed := dataFlushed w;
     errorsLogged := errorsLogged w;
     listenerQueue := listenerQueue w |}.

Definition addDataFlushed (w : World) (sent stored : Z) : World :=
  {| running := running w;
     impressionStorage := impressionStorage w;
     impressionManager := impressionManager w;
     recordCalls := recordCalls w;
     localTelemetry := localTelemetry w;
     dataFlushed := dataFlushed w ++ [(sent, stored)];
     errorsLogged := errorsLogged w;
     listenerQueue := listenerQueue w |}.

Definition addErrorLogged (w : World) (msg : string) : World :=
  {| running := running w;
     impressionStorage := impressionStorage w;
     impressionManager := impressionManager w;
     recordCalls := recordCalls w;
     localTelemetry := localTelemetry w;
     dataFlushed := dataFlushed w;
     errorsLogged := errorsLogged w ++ [msg];
     listenerQueue := listenerQueue w |}.

Definition addListener (w : World) (batches : list ImpressionBulk) : World :=
  {| running := running w;
     impressionStorage := impressionStorage w;
     impressionManager := impressionManager w;
     recordCalls := recordCalls w;
     localTelemetry := localTelemetry w;
     dataFlushed := dataFlushed w;
     errorsLogged := errorsLogged w;
     listenerQueue := listenerQueue w ++ batches |}.

(** [fetch]. *)
Definition fetch (bulkSize : Z) (w : World)
    : (error + list (Metadata * list ImpressionsDTO)
               * list (Metadata * list ImpressionsListener)) * World :=
  match PopNWithMetadata bulkSize (impressionStorage w) with
  | inl err =>
      (inl err,
       addErrorLogged w "(Task) Post Impressions fails fetching impressions from storage")
  | inr (storedImpressions, q) =>
      let '(m, toSend, forListener) := collect (impressionManager w) storedImpressions in
      (inr (toSend, forListener), setFetched w q m)
  end.

(** The function [recordImpressions] hands to [WithAttempts]: it calls
    [Record], logs a failure, and returns [nil].  (The header map with
    the impressions mode that goes with every call is the same each
    time and is left out of the record of the calls.) *)
Definition recordAttempt (metadata : Metadata) (impressions : list ImpressionsDTO)
    (w : World) : option error * World :=
  let err := upstream (length (recordCalls w)) impressions metadata in
  let w := addRecordCall w metadata impressions in
  match err with
  | Some _ => (None, addErrorLogged w "Error posting impressions")
  | None => (None, w)
  end.

(** The body of the loop of [recordImpressions] for one metadata. *)
Definition recordBatch (metadata : Metadata) (impressions : list ImpressionsDTO)
    (w : World) : option error * World :=
  let w :=
    if producerMode
    then addDataFlushed w (Z.of_nat (length impressions)) (Count (impressionStorage w))
    else w in
  match WithAttempts 3 (recordAttempt metadata impressions) w with
  | (Some err, w) =>
      (Some err,
       match err with
       | HTTPError code => addTelemetry w [SyncError code]
       | _ => w
       end)
  | (None, w) => (None, addTelemetry w [SyncLatency; SuccessfulSync])
  end.

(** [recordImpressions]: the batches in the order the map is ranged
    over; the first error ends the loop. *)
Fixpoint recordImpressions (impressionsToSend : list (Metadata * list ImpressionsDTO))
    (w : World) : option error * World :=
  match impressionsToSend with
  | [] => (None, w)
  | (metadata, impressions) :: rest =>
      match recordBatch metadata impressions w with
      | (Some err, w) => (Some err, w)
      | (None, w) => recordImpressions rest w
      end
  end.

(** Modelled from the spec: [task.QueueImpressionsForListener], whose
    source is not part of this development.  A bulk the queue does not
    refuse goes to its end; a refused one is not queued and the error
    is returned. *)
Definition QueueImpressionsForListener (queue : list ImpressionBulk)
    (bulk : ImpressionBulk) : option error * list ImpressionBulk :=
  match listenerRefuses queue bulk with
  | Some err => (Some err, queue)
  | None => (None, queue ++ [bulk])
  end.

(** The body of the loop of [sendDataToListener] for one metadata: a
    batch that does not encode is logged and passed over; one that does
    is handed to the queue, whose error is logged. *)
Definition listenerStep (w : World) (batch : Metadata * list ImpressionsListener)
    : World :=
  let '(metadata, impressions) := batch in
  match json_Marshal impressions with
  | inl err =>
      addErrorLogged w "JSON encoding failed for the following impressions"
  | inr rawImpressions =>
      let bulk :=
        {| Data := rawImpressions;
           SdkVersion := SDKVersion metadata;
           BulkMachineIP := MachineIP metadata;
           BulkMachineName := MachineName metadata |} in
      match QueueImpressionsForListener (listenerQueue w) bulk with
      | (Some err, _) => addErrorLogged w "Error queueing impressions for the listener"
      | (None, _) => addListener w [bulk]
      end
  end.

(** [sendDataToListener]: the batches in the order the map is ranged
    over. *)
Definition sendDataToListener
    (impressionsToListener : list (Metadata * list ImpressionsListener)) (w : World)
    : World :=
  foldl listenerStep w impressionsToListener.

(** [synchronizeImpressions]. *)
Definition synchronizeImpressions (bulkSize : Z) (w : World) : option error * World :=
  match fetch bulkSize w with
  | (inl err, w) => (Some err, w)
  | (inr (impressionsToSend, impressionsForListener), w) =>
      match recordImpressions impressionsToSend w with
      | (Some err, w) => (Some err, w)
      | (None, w) =>
          if impressionListenerEnabled
          then (None, sendDataToListener impressionsForListener w)
          else (None, w)
      end
  end.

(** [SynchronizeImpressions]. *)
Definition SynchronizeImpressions (bulkSize : Z) (w : World) : option error * World :=
  if IsOperationRunning (running w) ImpressionsOperation then (None, w)
  else synchronizeImpressions bulkSize w.

(** The loop of [FlushImpressions]; [None] when [fuel] turns do not end
    it. *)
Fixpoint flushLoop (fuel : nat) (elementsToFlush : Z) (w : World)
    : option (option error * World) :=
  if (0 <? elementsToFlush) && (0 <? Count (impressionStorage w)) then
    match fuel with
    | O => None
    | S fuel =>
        let maxSize := DefaultSize in
        let maxSize := if elementsToFlush <? DefaultSize then elementsToFlush else maxSize in
        match synchronizeImpressions maxSize w with
        | (Some err, w) => Some (Some err, w)
        | (None, w) => flushLoop fuel (elementsToFlush - DefaultSize) w
        end
    end
  else Some (None, w).

(** [FlushImpressions]; the deferred [FinishOperation] runs when the
    function returns, after the operation has been acquired. *)
Definition FlushImpressions (fuel : nat) (bulkSize : Z) (w : World)
    : option (option error * World) :=
  match RequestOperation (running w) ImpressionsOperation with
  | (false, _) => Some (Some ErrFlushBusy, w)
  | (true, g) =>
      let w := setRunning w g in
      let elementsToFlush := MaxSizeToFlush in
      let elementsToFlush := if bulkSize =? 0 then elementsToFlush else bulkSize in
      '(err, w) ← flushLoop fuel elementsToFlush w;
      Some (err, setRunning w (FinishOperation (running w) ImpressionsOperation))
  end.

(** The callback as the specification words it, returning the error of
    [Record] to [WithAttempts], and the batch loop body built on it. *)
Definition recordAttemptAsSpecified (metadata : Metadata)
    (impressions : list ImpressionsDTO) (w : World) : option error * World :=
  let err := upstream (length (recordCalls w)) impressions metadata in
  let w := addRecordCall w metadata impressions in
  match err with
  | Some e => (Some e, addErrorLogged w "Error posting impressions")
  | None => (None, w)
  end.

Definition recordBatchAsSpecified (metadata : Metadata)
    (impressions : list ImpressionsDTO) (w : World) : option error * World :=
  match WithAttempts 3 (recordAttemptAsSpecified metadata impressions) w with
  | (Some err, w) =>
      (Some err,
       match err with
       | HTTPError code => addTelemetry w [SyncError code]
       | _ => w
       end)
  | (None, w) => (None, addTelemetry w [SyncLatency; SuccessfulSync])
  end.

(** *** Recording *)

Lemma WithAttempts_recordAttempt (metadata : Metadata)
    (impressions : list ImpressionsDTO) (w : World) :
  WithAttempts 3 (recordAttempt metadata impressions) w =
  (None, (recordAttempt metadata impressions w).2).
Proof.
  cbn [WithAttempts]. unfold recordAttempt.
  by destruct (upstream _ _ _).
Qed.

Lemma recordBatch_succeeds (metadata : Metadata)
    (impressions : list ImpressionsDTO) (w : World) :
  exists w',
    recordBatch metadata impressions w = (None, w') /\
    running w' = running w /\
    recordCalls w' = recordCalls w ++ [(metadata, impressions)] /\
    localTelemetry w' = localTelemetry w ++ [SyncLatency; SuccessfulSync].
Proof.
  unfold recordBatch. rewrite WithAttempts_recordAttempt.
  eexists. split; [reflexivity|].
  unfold recordAttempt.
  destruct producerMode; destruct (upstream _ _ _); simpl; done.
Qed.

(** The effects of [recordImpressions]: one call of [Record] and one
    pair of success reports for each batch, and no error. *)
Lemma recordImpressions_effects
    (impressionsToSend : list (Metadata * list ImpressionsDTO)) (w : World) :
  exists w',
    recordImpressions impressionsToSend w = (None, w') /\
    running w' = running w /\
    recordCalls w' = recordCalls w ++ impressionsToSend /\
    localTelemetry w' =
      localTelemetry w ++
      mjoin (replicate (length impressionsToSend) [SyncLatency; SuccessfulSync]).
Proof.
  revert w. induction impressionsToSend as [|[metadata impressions] rest IH]; intros w.
  - exists w. simpl. by rewrite !app_nil_r.
  - destruct (recordBatch_succeeds metadata impressions w) as (w1 & Hrun & Hg & Hc & Ht).
    destruct (IH w1) as (w' & Hrest & Hg' & Hc' & Ht').
    exists w'. cbn [recordImpressions]. rewrite Hrun, Hrest.
    split; [done|]. split; [congruence|]. split.
    + rewrite Hc', Hc, <- app_assoc. done.
    + rewrite Ht', Ht, <- app_assoc. done.
Qed.

(** C3, what the code does.  Whatever upstream answers, also when it
    fails every time, [recordImpressions] returns [nil]: it calls
    [Record] once for each batch and not again, it records no sync
    error, and it records a sync latency and a successful sync for
    every batch. *)
Theorem recordImpressions_swallows_errors
    (impressionsToSend : list (Metadata * list ImpressionsDTO)) (w : World) :
  let '(err, w') := recordImpressions impressionsToSend w in
  err = None /\
  recordCalls w' = recordCalls w ++ impressionsToSend /\
  localTelemetry w' =
    localTelemetry w ++
    mjoin (replicate (length impressionsToSend) [SyncLatency; SuccessfulSync]) /\
  forall code, SyncError code ∈ localTelemetry w' -> SyncError code ∈ localTelemetry w.
Proof.
  destruct (recordImpressions_effects impressionsToSend w) as (w' & -> & _ & Hc & Ht).
  split; [done|]. split; [done|]. split; [done|].
  intros code. rewrite Ht. intros [Hin|Hin]%elem_of_app; [done|].
  exfalso. clear -Hin.
  induction impressionsToSend as [|batch rest IH]; simpl in Hin.
  - by apply elem_of_nil in Hin.
  - apply elem_of_cons in Hin as [Heq|Hin]; [done|].
    apply elem_of_cons in Hin as [Heq|Hin]; [done|]. by apply IH.
Qed.

(** *** The operation gate *)

Lemma fetch_running (bulkSize : Z) (w : World) :
  running (fetch bulkSize w).2 = running w.
Proof.
  unfold fetch. destruct (PopNWithMetadata _ _) as [err|[stored q]]; [done|].
  by destruct (collect _ _) as [[m toSend] forListener].
Qed.

Lemma sendDataToListener_running
    (batches : list (Metadata * list ImpressionsListener)) (w : World) :
  running (sendDataToListener batches w) = running w.
Proof.
  unfold sendDataToListener. revert w.
  induction batches as [|[metadata impressions] rest IH]; intros w; [done|].
  cbn [foldl]. rewrite IH. unfold listenerStep, QueueImpressionsForListener.
  destruct (json_Marshal impressions) as [err|raw]; [done|].
  by destruct (listenerRefuses _ _).
Qed.

Lemma synchronizeImpressions_running (bulkSize : Z) (w : World) :
  running (synchronizeImpressions bulkSize w).2 = running w.
Proof.
  unfold synchronizeImpressions.
  pose proof (fetch_running bulkSize w) as Hfetch.
  destruct (fetch bulkSize w) as [[err|[toSend forListener]] w1]; simpl in *; [done|].
  destruct (recordImpressions_effects toSend w1) as (w2 & -> & Hg & _).
  destruct impressionListenerEnabled; simpl;
    rewrite ?sendDataToListener_running; congruence.
Qed.

Lemma flushLoop_running (fuel : nat) (elementsToFlush : Z) (w w' : World)
    (err : option error) :
  flushLoop fuel elementsToFlush w = Some (err, w') -> running w' = running w.
Proof.
  revert elementsToFlush w.
  induction fuel as [|fuel IH]; intros elementsToFlush w Hrun; simpl in Hrun;
    destruct ((0 <? elementsToFlush) && (0 <? Count (impressionStorage w)));
    try done; try (by injection Hrun as _ <-).
  match type of Hrun with
  | context [synchronizeImpressions ?n w] =>
      pose proof (synchronizeImpressions_running n w) as Hsync;
      destruct (synchronizeImpressions n w) as [[e|] w1]
  end; simpl in Hsync.
  - injection Hrun as _ <-. done.
  - apply IH in Hrun. congruence.
Qed.

Lemma flushLoop_total (fuel : nat) (elementsToFlush : Z) (w : World) :
  0 < DefaultSize ->
  (Z.to_nat elementsToFlush <= fuel)%nat ->
  is_Some (flushLoop fuel elementsToFlush w).
Proof.
  intros Hsize. revert elementsToFlush w.
  induction fuel as [|fuel IH]; intros elementsToFlush w Hfuel; simpl.
  - destruct (Z.ltb_spec 0 elementsToFlush); [lia|]. simpl. by eexists.
  - destruct (Z.ltb_spec 0 elementsToFlush); simpl; [|by eexists].
    destruct (0 <? Count (impressionStorage w)); [|by eexists].
    destruct (synchronizeImpressions _ w) as [[e|] w1]; [by eexists|].
    apply IH. lia.
Qed.

(** C6.  The gate contract for the Impressions kind.  A
    [SynchronizeImpressions] call that finds the operation running
    returns [nil] and leaves the storage, the upstream calls and
    everything else untouched.  A [FlushImpressions] call whose request
    is denied returns the busy error and changes nothing.  A
    [FlushImpressions] call whose request is granted and that returns,
    with or without an error, has called [FinishOperation]: the
    operation is released and the other kinds are as they were; and the
    call does return, given turns enough for its loop, when
    [DefaultSize] is positive. *)
Theorem impressions_gate (fuel : nat) (bulkSize : Z) (w : World) :
  (IsOperationRunning (running w) ImpressionsOperation = true ->
     SynchronizeImpressions bulkSize w = (None, w)) /\
  ((RequestOperation (running w) ImpressionsOperation).1 = false ->
     FlushImpressions fuel bulkSize w = Some (Some ErrFlushBusy, w)) /\
  (forall g,
     RequestOperation (running w) ImpressionsOperation = (true, g) ->
     (forall err w',
        FlushImpressions fuel bulkSize w = Some (err, w') ->
        running w' = FinishOperation g ImpressionsOperation /\
        IsOperationRunning (running w') ImpressionsOperation = false /\
        forall kind, kind <> ImpressionsOperation -> running w' kind = running w kind) /\
     (0 < DefaultSize ->
      (Z.to_nat (if (bulkSize =? 0)%Z then MaxSizeToFlush else bulkSize) <= fuel)%nat ->
      is_Some (FlushImpressions fuel bulkSize w))).
Proof.
  split; [|split].
  - intros Hgate. unfold SynchronizeImpressions. by rewrite Hgate.
  - intros Hdenied. unfold FlushImpressions.
    destruct (RequestOperation _ _) as [[] g]; [done|done].
  - intros g Hgranted. unfold FlushImpressions. rewrite Hgranted. split.
    + intros err w' Hrun.
      destruct (flushLoop _ _ _) as [[e w1]|] eqn:Hloop; [|done].
      simpl in Hrun. injection Hrun as _ <-.
      apply flushLoop_running in Hloop. simpl in *. rewrite Hloop.
      split; [done|]. unfold IsOperationRunning, FinishOperation. split.
      * by rewrite decide_True.
      * intros kind Hkind. rewrite decide_False by done.
        unfold RequestOperation in Hgranted.
        destruct (running w ImpressionsOperation); [done|].
        injection Hgranted as <-. by rewrite decide_False.
    + intros Hsize Hfuel.
      match goal with
      | |- context [flushLoop fuel ?e ?w0] =>
          destruct (flushLoop_total fuel e w0 Hsize Hfuel) as [[e' w1] ->]
      end.
      by eexists.
Qed.

End Recorder.

(** A recorder over numbered impressions and a list for a queue, with an
    upstream that answers every POST with status 500. *)
Definition sampleMetadata : Metadata :=
  {| SDKVersion := "go-6.0.0"; MachineIP := "10.0.0.1"; MachineName := "host" |}.

Definition sampleCount (q : list Z) : Z := Z.of_nat (length q).

Definition samplePop (n : Z) (q : list Z) : error + (list Z * list Z) :=
  inr (take (Z.to_nat n) q, drop (Z.to_nat n) q).

Definition sampleCollect (m : unit) (stored : list Z)
    : unit * list (Metadata * list Z) * list (Metadata * list Z) :=
  (m, match stored with [] => [] | _ => [(sampleMetadata, stored)] end,
   match stored with [] => [] | _ => [(sampleMetadata, stored)] end).

Definition failingUpstream (calls : nat) (impressions : list Z) (metadata : Metadata)
    : option error :=
  Some (HTTPError 500).

(** An encoder that fails on an empty batch, and a listener queue with
    room for two bulks. *)
Definition sampleMarshal (impressions : list Z) : error + string :=
  match impressions with
  | [] => inl (ErrOther "json: nothing to encode")
  | _ => inr "[...]"
  end.

Definition sampleRefuses (queue : list ImpressionBulk) (bulk : ImpressionBulk)
    : option error :=
  if decide (2 <= length queue)%nat then Some (ErrOther "listener queue is full")
  else None.

Definition sampleWorld (busy : bool) (q : list Z) : @World Z (list Z) unit :=
  {| running := fun kind => if decide (kind = ImpressionsOperation) then busy else false;
     impressionStorage := q;
     impressionManager := ();
     recordCalls := [];
     localTelemetry := [];
     dataFlushed := [];
     errorsLogged := [];
     listenerQueue := [] |}.

(** The failing input of C3: one batch, upstream down.  The code posts
    once, returns [nil] and reports a successful sync. *)
Example recordImpressions_upstream_down :
  let '(err, w) :=
    recordImpressions sampleCount failingUpstream false [(sampleMetadata, [1; 2])]
      (sampleWorld false []) in
  err = None /\
  recordCalls w = [(sampleMetadata, [1; 2])] /\
  localTelemetry w = [SyncLatency; SuccessfulSync].
Proof. vm_compute. done. Qed.

(** With the callback returning the error of [Record], the same input
    gives three attempts, the error and a sync error. *)
Example recordBatchAsSpecified_upstream_down :
  let '(err, w) :=
    recordBatchAsSpecified failingUpstream sampleMetadata [1; 2] (sampleWorld false []) in
  err = Some (HTTPError 500) /\
  length (recordCalls w) = 3%nat /\
  localTelemetry w = [SyncError 500].
Proof. vm_compute. done. Qed.

Lemma impressions_gate_witness :
  SynchronizeImpressions sampleCount samplePop sampleCollect failingUpstream true false
    sampleMarshal sampleRefuses 10 (sampleWorld true [1; 2; 3])
  = (None, sampleWorld true [1; 2; 3]) /\
  FlushImpressions sampleCount samplePop sampleCollect failingUpstream true false
    25000 5000 sampleMarshal sampleRefuses 5 0 (sampleWorld true [1; 2; 3])
  = Some (Some ErrFlushBusy, sampleWorld true [1; 2; 3]) /\
  ((forall err w',
      FlushImpressions sampleCount samplePop sampleCollect failingUpstream true false
        4 2 sampleMarshal sampleRefuses 5 0 (sampleWorld false [1; 2; 3]) = Some (err, w') ->
      running w' =
        FinishOperation
          (RequestOperation (running (sampleWorld false [1; 2; 3])) ImpressionsOperation).2
          ImpressionsOperation /\
      IsOperationRunning (running w') ImpressionsOperation = false /\
      forall kind, kind <> ImpressionsOperation ->
                   running w' kind = running (sampleWorld false [1; 2; 3]) kind) /\
   (0 < 2 ->
    (Z.to_nat (if (0 =? 0)%Z then 4 else 0) <= 5)%nat ->
    is_Some (FlushImpressions sampleCount samplePop sampleCollect failingUpstream
               true false 4 2 sampleMarshal sampleRefuses 5 0 (sampleWorld false [1; 2; 3])))).
Proof.
  split; [|split].
  - apply (impressions_gate sampleCount samplePop sampleCollect failingUpstream
             true false 25000 5000 sampleMarshal sampleRefuses 5 10 (sampleWorld true [1; 2; 3])).
    reflexivity.
  - apply (impressions_gate sampleCount samplePop sampleCollect failingUpstream
             true false 25000 5000 sampleMarshal sampleRefuses 5 0 (sampleWorld true [1; 2; 3])).
    reflexivity.
  - apply (impressions_gate sampleCount samplePop sampleCollect failingUpstream
             true false 4 2 sampleMarshal sampleRefuses 5 0 (sampleWorld false [1; 2; 3])).
    reflexivity.
Defined.

Example FlushImpressions_drains :
  (fun r => (r.1, impressionStorage r.2, recordCalls r.2)) <$>
  FlushImpressions sampleCount samplePop sampleCollect failingUpstream true false
    4 2 sampleMarshal sampleRefuses 5 0 (sampleWorld false [1; 2; 3])
  = Some (None, [], [(sampleMetadata, [1; 2]); (sampleMetadata, [3])]).
Proof. vm_compute. reflexivity. Qed.

End ImpressionWorker.

(** ** Polling the database-backed proxy *)

Module LegacyPolling.

Import LegacyProxy.

(** The computation of [uptime] between the reading of the seconds and
    the formatting: days, hours, minutes and seconds.  Go's [/] on
    [int64] truncates, as [Z.quot] does. *)
Definition uptimeParts (seconds : Z) : Z * Z * Z * Z :=
  let d := 0 in
  let h := 0 in
  let m := 0 in
  let s := seconds in
  let '(m, s) := if 60 <? s then (Z.quot s 60, s - Z.quot s 60 * 60) else (m, s) in
  let '(h, m) := if 60 <? m then (Z.quot m 60, m - Z.quot m 60 * 60) else (h, m) in
  let '(d, h) := if 24 <? h then (Z.quot h 24, h - Z.quot h 24 * 24) else (d, h) in
  (d, h, m, s).

Lemma fold_max_upper (l : list Z) (z x : Z) :
  In x l -> x <= fold_left Z.max l z.
Proof.
  revert z. induction l as [|y l IH]; intros z Hin; simpl; [done|].
  destruct Hin as [->|Hin].
  - pose proof (fold_max_ge l (Z.max z x)). lia.
  - by apply IH.
Qed.

Lemma fold_max_attained (l : list Z) (z : Z) :
  fold_left Z.max l z = z \/ In (fold_left Z.max l z) l.
Proof.
  revert z. induction l as [|y l IH]; intros z; simpl; [by left|].
  destruct (IH (Z.max z y)) as [Heq|Hin]; [|by right; right].
  rewrite Heq. destruct (Z.max_spec z y) as [[_ ->]|[_ ->]]; [right; by left | by left].
Qed.

Lemma selected_active since items split :
  In split (selected since items) -> Status split = "ACTIVE".
Proof.
  unfold selected. rewrite filter_In. intros [_ H].
  apply andb_prop in H as [H _]. by apply String.eqb_eq.
Qed.

Lemma selected_nil_above (since till : Z) (items : list SplitChangesItem) :
  since <= till ->
  (forall split, In split (selected since items) -> ChangeNumber split <= till) ->
  selected till items = [].
Proof.
  intros Hle Hmax. unfold selected in *.
  induction items as [|split items IH]; [done|]. simpl in *.
  destruct (String.eqb (Status split) "ACTIVE") eqn:Hact; simpl in *.
  - destruct (Z.ltb_spec since (ChangeNumber split)) as [Hnew|Hold].
    + pose proof (Hmax split (or_introl eq_refl)).
      destruct (Z.ltb_spec till (ChangeNumber split)); [lia|].
      apply IH. intros s Hs. apply Hmax. by right.
    + destruct (Z.ltb_spec till (ChangeNumber split)); [lia|]. by apply IH.
  - by apply IH.
Qed.

(** The [till] of [fetchSplitsFromDB] is the largest change number among
    the splits it returns, and [since] when it returns none; every
    split it returns is ACTIVE. *)
Theorem fetchSplitsFromDB_till_is_max (since : Z) (items : list SplitChangesItem) :
  let '(splits, till, err) := fetchSplitsFromDB since (inr items) in
  err = None /\
  splits = map JSON (selected since items) /\
  (forall split, In split (selected since items) ->
     Status split = "ACTIVE" /\ since < ChangeNumber split <= till) /\
  (selected since items = [] -> till = since) /\
  (selected since items <> [] ->
     exists split, In split (selected since items) /\ ChangeNumber split = till).
Proof.
  unfold fetchSplitsFromDB. rewrite splits_loop. simpl.
  split; [done|]. split; [done|]. split; [|split].
  - intros split Hin. split; [by eapply selected_active|]. split.
    + by eapply selected_newer.
    + apply fold_max_upper. by apply in_map.
  - by intros ->.
  - intros Hne.
    destruct (fold_max_attained (map ChangeNumber (selected since items)) since)
      as [Heq|Hin].
    + destruct (selected since items) as [|split rest] eqn:Hsel; [done|].
      exists split. split; [by left|].
      assert (Hin : In split (selected since items)) by (rewrite Hsel; by left).
      pose proof (selected_newer _ _ _ Hin).
      pose proof (fold_max_upper (map ChangeNumber (split :: rest)) since
                    (ChangeNumber split) (in_map ChangeNumber _ _ (in_eq split rest))).
      lia.
    + apply in_map_iff in Hin as (split & Hcn & Hin). by exists split.
Qed.

(** Polling again with the [till] of an answer gives no split and the
    same [till]: the answer of [fetchSplitsFromDB] brings its caller up
    to date. *)
Theorem fetchSplitsFromDB_poll_again (since : Z) (items : list SplitChangesItem) :
  let '(_, till, _) := fetchSplitsFromDB since (inr items) in
  fetchSplitsFromDB till (inr items) = ([], till, None).
Proof.
  unfold fetchSplitsFromDB. rewrite splits_loop. simpl. rewrite splits_loop.
  set (till := fold_left Z.max (map ChangeNumber (selected since items)) since).
  rewrite (selected_nil_above since till); [done| apply fold_max_ge |].
  intros split Hin. apply fold_max_upper. by apply in_map.
Qed.

Lemma selected_sublist (since since' : Z) (items : list SplitChangesItem) :
  since <= since' -> sublist (selected since' items) (selected since items).
Proof.
  intros Hle. unfold selected.
  induction items as [|split items IH]; simpl; [constructor|].
  destruct (String.eqb (Status split) "ACTIVE"); simpl; [|done].
  destruct (Z.ltb_spec since' (ChangeNumber split));
    destruct (Z.ltb_spec since (ChangeNumber split)); try lia; try done.
  - by constructor.
  - by constructor.
Qed.

(** A caller with a later [since] is sent a sub-list of what a caller
    with an earlier one is sent, in the same order. *)
Theorem fetchSplitsFromDB_later_since (since since' : Z)
    (items : list SplitChangesItem) :
  since <= since' ->
  sublist (fetchSplitsFromDB since' (inr items)).1.1
          (fetchSplitsFromDB since (inr items)).1.1.
Proof.
  intros Hle. unfold fetchSplitsFromDB. rewrite !splits_loop. simpl.
  apply (fmap_sublist JSON). by apply selected_sublist.
Qed.

Lemma fetchSplitsFromDB_later_since_witness :
  sublist (fetchSplitsFromDB 5 (inr sampleSplits)).1.1
          (fetchSplitsFromDB 1 (inr sampleSplits)).1.1.
Proof. apply (fetchSplitsFromDB_later_since 1 5 sampleSplits). lia. Defined.

Lemma deltasAfter_nil_above (since till : Z) (keys : list SegmentKey) :
  since <= till ->
  (forall skey, In skey (deltasAfter since keys) -> KeyChangeNumber skey <= till) ->
  deltasAfter till keys = [].
Proof.
  intros Hle Hmax. unfold deltasAfter in *.
  induction keys as [|skey keys IH]; [done|]. simpl in *.
  destruct (Z.ltb_spec since (KeyChangeNumber skey)).
  - pose proof (Hmax skey (or_introl eq_refl)).
    destruct (Z.ltb_spec till (KeyChangeNumber skey)); [lia|].
    apply IH. intros s Hs. apply Hmax. by right.
  - destruct (Z.ltb_spec till (KeyChangeNumber skey)); [lia|]. by apply IH.
Qed.

(** For a positive [since], polling a segment again with the [till] of
    the answer gives no key and the same [till]. *)
Theorem fetchSegmentsFromDB_poll_again (since : Z) (item : SegmentChangesItem) :
  0 < since ->
  let '(_, _, till, _) := fetchSegmentsFromDB since (inr item) in
  fetchSegmentsFromDB till (inr item) = ([], [], till, None).
Proof.
  intros Hpos. unfold fetchSegmentsFromDB. rewrite segments_loop. simpl.
  destruct (Z.ltb_spec 0 since); [|lia].
  set (till := fold_left Z.max (map KeyChangeNumber (deltasAfter since (Keys item))) since).
  rewrite segments_loop.
  assert (Htill : since <= till) by apply fold_max_ge.
  rewrite (deltasAfter_nil_above since till); [| done |].
  - destruct (0 <? till); done.
  - intros skey Hin. apply fold_max_upper. by apply in_map.
Qed.

Lemma fetchSegmentsFromDB_poll_again_witness :
  let '(_, _, till, _) := fetchSegmentsFromDB 2 (inr sampleSegment) in
  fetchSegmentsFromDB till (inr sampleSegment) = ([], [], till, None).
Proof. apply (fetchSegmentsFromDB_poll_again 2 sampleSegment). lia. Defined.

(** The parts [uptime] prints add up to the seconds it read; for a
    non-negative reading no part is negative, and the seconds and
    minutes stay within 60 and the hours within 24, bounds included
    (the code carries over only above 60 and above 24). *)
Theorem uptimeParts_add_up (seconds : Z) :
  let '(d, h, m, s) := uptimeParts seconds in
  d * 86400 + h * 3600 + m * 60 + s = seconds /\
  (0 <= seconds -> 0 <= d /\ 0 <= h <= 24 /\ 0 <= m <= 60 /\ 0 <= s <= 60).
Proof.
  unfold uptimeParts.
  destruct (Z.ltb_spec 60 seconds) as [Hs|Hs].
  - pose proof (Z.quot_rem' seconds 60) as Hq1.
    pose proof (Z.rem_bound_pos seconds 60 ltac:(lia) ltac:(lia)) as Hr1.
    set (m0 := Z.quot seconds 60) in *.
    assert (0 <= m0) by (apply Z.quot_pos; lia).
    destruct (Z.ltb_spec 60 m0) as [Hm|Hm].
    + pose proof (Z.quot_rem' m0 60) as Hq2.
      pose proof (Z.rem_bound_pos m0 60 ltac:(lia) ltac:(lia)) as Hr2.
      set (h0 := Z.quot m0 60) in *.
      assert (0 <= h0) by (apply Z.quot_pos; lia).
      destruct (Z.ltb_spec 24 h0) as [Hh|Hh].
      * pose proof (Z.quot_rem' h0 24) as Hq3.
        pose proof (Z.rem_bound_pos h0 24 ltac:(lia) ltac:(lia)) as Hr3.
        assert (0 <= Z.quot h0 24) by (apply Z.quot_pos; lia).
        split; lia.
      * split; lia.
    + split; lia.
  - simpl. split; lia.
Qed.

Lemma uptimeParts_add_up_witness :
  let '(d, h, m, s) := uptimeParts 90061 in
  d * 86400 + h * 3600 + m * 60 + s = 90061 /\
  (0 <= 90061 -> 0 <= d /\ 0 <= h <= 24 /\ 0 <= m <= 60 /\ 0 <= s <= 60).
Proof. apply (uptimeParts_add_up 90061). Defined.

Example uptimeParts_minute : uptimeParts 60 = (0, 0, 0, 60).
Proof. reflexivity. Qed.

Example uptimeParts_day : uptimeParts 90061 = (1, 1, 1, 1).
Proof. reflexivity. Qed.

End LegacyPolling.

(** ** Timeslices: alignment and what eviction keeps *)

Module TimesliceRetention.

Import TimeslicedTelemetry.

(** For a positive width and a time after the epoch, the key is the
    start of the window the time falls in: a multiple of the width, at
    most the time and less than a width before it; and the key of a
    key is the key itself. *)
Theorem keyForTimeSlice_aligned (curr width : Z) :
  0 < width -> 0 <= curr ->
  exists key,
    keyForTimeSlice curr width = Some key /\
    key = width * (curr / width) /\
    key <= curr < key + width /\
    keyForTimeSlice key width = Some key.
Proof.
  intros Hw Hc. unfold keyForTimeSlice.
  destruct (Z.eqb_spec width 0); [lia|].
  rewrite Z.rem_mod_nonneg by lia.
  pose proof (Z.div_mod curr width ltac:(lia)) as Hdm.
  pose proof (Z.mod_pos_bound curr width Hw) as Hb.
  exists (curr - curr mod width). split; [done|]. split; [lia|]. split; [lia|].
  pose proof (Z.mod_le curr width Hc Hw) as Hle.
  rewrite Z.rem_mod_nonneg by lia.
  assert (Hz : (curr - curr mod width) mod width = 0).
  { replace (curr - curr mod width) with ((curr / width) * width) by lia.
    apply Z.mod_mul. lia. }
  rewrite Hz. f_equal. lia.
Qed.

Lemma keyForTimeSlice_aligned_witness :
  exists key,
    keyForTimeSlice 125 60 = Some key /\
    key = 60 * (125 / 60) /\
    key <= 125 < key + 60 /\
    keyForTimeSlice key 60 = Some key.
Proof. apply (keyForTimeSlice_aligned 125 60); lia. Defined.

Section Retention.

Context {timeSliceTelemetry : Type}.
Variable newTimeSliceTelemetry : Z -> timeSliceTelemetry.
Variable recordEndpointLatency : Z -> Z -> timeSliceTelemetry -> timeSliceTelemetry.

Abbreviation telemetry := (@TimeslicedProxyEndpointTelemetryImpl timeSliceTelemetry).

(** Rolling over twice is rolling over once: what [unsafeRollover]
    leaves is within the bound. *)
Theorem unsafeRollover_idempotent (t t' : telemetry) :
  unsafeRollover t = Some t' -> unsafeRollover t' = Some t'.
Proof.
  intros Hroll.
  destruct (decide (liveBuckets t <= maxTimeSlices t)) as [Hin|Hover].
  - rewrite unsafeRollover_within in Hroll by done.
    injection Hroll as <-. by apply unsafeRollover_within.
  - apply (unsafeRollover_evicts newTimeSliceTelemetry recordEndpointLatency
             recordEndpointLatency) in Hroll as ([Hsize _] & _ & Hmax); [|lia].
    apply unsafeRollover_within. lia.
Qed.

(** What [geHistoricForTS] does for a slice that has no bucket yet. *)
Lemma geHistoricForTS_new (t : telemetry) (ts key : Z) :
  0 <= maxTimeSlices t ->
  keyForTimeSlice ts (timeSliceWidth t) = Some key ->
  telemetryByTimeSlice t !! key = None ->
  let t1 := setBuckets t (<[key := newTimeSliceTelemetry key]> (telemetryByTimeSlice t)) in
  (liveBuckets t1 <= maxTimeSlices t /\
   geHistoricForTS newTimeSliceTelemetry t ts = Some (key, t1)) \/
  (maxTimeSlices t < liveBuckets t1 /\
   exists t2, geHistoricForTS newTimeSliceTelemetry t ts = Some (key, t2) /\
              evictsOldest t1 t2).
Proof.
  intros Hmax Hkey Hnone t1. unfold geHistoricForTS. rewrite Hkey. simpl.
  rewrite Hnone. fold t1.
  case_bool_decide as Hover; [right | left; split; [simpl in *; lia | done]].
  split; [done|].
  destruct (unsafeRollover_total t1 Hmax) as [t2 Hroll].
  exists t2. rewrite Hroll. split; [done|].
  by apply (unsafeRollover_evicts newTimeSliceTelemetry recordEndpointLatency
              recordEndpointLatency) in Hroll as [? _].
Qed.

(** An observation in a slice that is not older than any live bucket is
    stored: after [RecordEndpointLatency] the bucket of that slice is
    live and holds the latency, recorded into the bucket the slice had
    or into a new one. *)
Theorem RecordEndpointLatency_newest (t : telemetry) (now endpoint latency key : Z) :
  1 <= maxTimeSlices t ->
  keyForTimeSlice now (timeSliceWidth t) = Some key ->
  (forall j, j ∈ dom (telemetryByTimeSlice t) -> j <= key) ->
  exists t',
    RecordEndpointLatency newTimeSliceTelemetry recordEndpointLatency t now endpoint latency
    = Some t' /\
    telemetryByTimeSlice t' !! key =
      Some (recordEndpointLatency endpoint latency
              (default (newTimeSliceTelemetry key) (telemetryByTimeSlice t !! key))).
Proof.
  intros Hmax Hkey Hnewest. unfold RecordEndpointLatency.
  destruct (telemetryByTimeSlice t !! key) as [b|] eqn:Hb.
  - unfold geHistoricForTS. rewrite Hkey. simpl. rewrite Hb. simpl.
    eexists. split; [done|]. simpl. by rewrite lookup_alter_eq, Hb.
  - destruct (geHistoricForTS_new t now key ltac:(lia) Hkey Hb)
      as [[_ ->]|(Hover & t2 & -> & Hsize & Hsub & Holdest)]; simpl.
    + eexists. split; [done|]. simpl. by rewrite lookup_alter_eq, lookup_insert_eq.
    + eexists. split; [done|]. simpl. rewrite lookup_alter_eq.
      assert (Hin : key ∈ dom (telemetryByTimeSlice t2)).
      { destruct (decide (key ∈ dom (telemetryByTimeSlice t2))) as [|Hout]; [done|].
        exfalso.
        assert (Hne : telemetryByTimeSlice t2 <> ∅).
        { apply map_size_non_empty_iff. unfold liveBuckets in Hsize. simpl in Hsize. lia. }
        apply map_choose in Hne as (kept & b & Hkept).
        assert (Hk2 : kept ∈ dom (telemetryByTimeSlice t2)) by (apply elem_of_dom; eauto).
        pose proof (Holdest key kept) as Hlt. simpl in Hlt.
        rewrite dom_insert_L in Hlt.
        specialize (Hlt ltac:(set_solver) Hout Hk2).
        assert (Hk1 : (<[key := newTimeSliceTelemetry key]> (telemetryByTimeSlice t))
                      !! kept = Some b).
        { by apply (lookup_weaken _ _ _ _ Hkept). }
        rewrite lookup_insert_ne in Hk1 by lia.
        assert (kept <= key) by (apply Hnewest, elem_of_dom; eauto). lia. }
      apply elem_of_dom in Hin as [b Hb2]. rewrite Hb2. simpl.
      pose proof (lookup_weaken _ _ _ _ Hb2 Hsub) as Hb1. simpl in Hb1.
      rewrite lookup_insert_eq in Hb1. by injection Hb1 as <-.
Qed.

(** An observation in a slice older than every live bucket, made when
    the map is full, is lost: the bucket made for it is the one the
    rollover evicts, and [RecordEndpointLatency] leaves the map as it
    was. *)
Theorem RecordEndpointLatency_stale (t : telemetry) (now endpoint latency key : Z) :
  liveBuckets t = maxTimeSlices t ->
  keyForTimeSlice now (timeSliceWidth t) = Some key ->
  (forall j, j ∈ dom (telemetryByTimeSlice t) -> key < j) ->
  exists t',
    RecordEndpointLatency newTimeSliceTelemetry recordEndpointLatency t now endpoint latency
    = Some t' /\
    telemetryByTimeSlice t' = telemetryByTimeSlice t.
Proof.
  intros Hfull Hkey Holder. unfold RecordEndpointLatency.
  unfold liveBuckets in Hfull.
  set (m := telemetryByTimeSlice t) in *.
  assert (Hnone : m !! key = None).
  { apply not_elem_of_dom. intros Hin. apply Holder in Hin. lia. }
  assert (Hmax : 0 <= maxTimeSlices t) by lia.
  destruct (geHistoricForTS_new t now key Hmax Hkey Hnone)
    as [[Hle _]|(Hover & t2 & -> & Hsize & Hsub & Holdest)].
  { unfold liveBuckets in Hle. simpl in Hle. fold m in Hle.
    rewrite map_size_insert_None in Hle by done. lia. }
  unfold liveBuckets in Hsize. simpl in *. fold m in Hsub, Holdest.
  set (m2 := telemetryByTimeSlice t2) in *.
  eexists. split; [done|]. simpl.
  assert (Hsz : size m2 = size m) by lia.
  assert (Hd1 : dom m2 ⊆ {[key]} ∪ dom m).
  { intros j Hj. apply (subseteq_dom _ _ Hsub) in Hj. by rewrite dom_insert_L in Hj. }
  assert (Hfresh : key ∉ dom m) by (by apply not_elem_of_dom).
  assert (Hout : key ∉ dom m2).
  { intros Hin.
    assert (Hex : exists old, old ∈ dom m ∖ dom m2).
    { apply set_choose_L. intros Hempty.
      assert (Hall : {[key]} ∪ dom m ⊆ dom m2).
      { intros j [Hj|Hj]%elem_of_union.
        - apply elem_of_singleton in Hj. by subst.
        - destruct (decide (j ∈ dom m2)) as [|Hn]; [done|]. exfalso.
          apply (not_elem_of_empty (C := gset Z) j). rewrite <- Hempty.
          by apply elem_of_difference. }
      apply subseteq_size in Hall.
      rewrite size_union in Hall by (by apply disjoint_singleton_l).
      rewrite size_singleton, !size_dom in Hall. lia. }
    destruct Hex as (old & [Hold Hgone]%elem_of_difference).
    pose proof (Holdest old key) as Hlt. rewrite dom_insert_L in Hlt.
    specialize (Hlt ltac:(apply elem_of_union; by right) Hgone Hin).
    apply Holder in Hold. lia. }
  assert (Hdom : dom m2 = dom m).
  { apply set_subseteq_size_eq; [|rewrite !size_dom; lia].
    intros j Hj. pose proof (Hd1 j Hj) as [Hk|Hm]%elem_of_union; [|done].
    apply elem_of_singleton in Hk. by subst. }
  assert (Heq : m2 = m).
  { apply map_eq. intros j.
    destruct (m2 !! j) as [b|] eqn:Hj.
    - pose proof (lookup_weaken _ _ _ _ Hj Hsub) as Hj1.
      destruct (decide (j = key)) as [->|Hne].
      + exfalso. apply Hout, elem_of_dom. eauto.
      + by rewrite lookup_insert_ne in Hj1.
    - symmetry. apply not_elem_of_dom. rewrite <- Hdom. by apply not_elem_of_dom. }
  rewrite Heq. apply map_eq. intros j. rewrite lookup_alter.
  case_decide; [subst; by rewrite Hnone | done].
Qed.

End Retention.

(** Three buckets where two are allowed, and what a rollover leaves of
    them. *)
Definition crowdedTelemetry : @TimeslicedProxyEndpointTelemetryImpl (list Z) :=
  {| telemetryByTimeSlice := {[ 0 := [10]; 60 := [20]; 120 := [30] ]};
     timeSliceWidth := 60;
     maxTimeSlices := 2 |}.

Definition rolledTelemetry : @TimeslicedProxyEndpointTelemetryImpl (list Z) :=
  {| telemetryByTimeSlice := {[ 60 := [20]; 120 := [30] ]};
     timeSliceWidth := 60;
     maxTimeSlices := 2 |}.

Example unsafeRollover_crowded : unsafeRollover crowdedTelemetry = Some rolledTelemetry.
Proof. vm_compute. reflexivity. Qed.

Lemma unsafeRollover_idempotent_witness :
  unsafeRollover rolledTelemetry = Some rolledTelemetry.
Proof.
  apply (unsafeRollover_idempotent sampleNew sampleLatency crowdedTelemetry).
  vm_compute. reflexivity.
Defined.

(** A telemetry with room for one slice, which holds the slice of minute
    two. *)
Definition fullTelemetry : @TimeslicedProxyEndpointTelemetryImpl (list Z) :=
  {| telemetryByTimeSlice := {[ 120 := [30] ]};
     timeSliceWidth := 60;
     maxTimeSlices := 1 |}.

Lemma RecordEndpointLatency_newest_witness :
  exists t',
    RecordEndpointLatency sampleNew sampleLatency fullTelemetry 185 0 10 = Some t' /\
    telemetryByTimeSlice t' !! 180 =
      Some (sampleLatency 0 10
              (default (sampleNew 180) (telemetryByTimeSlice fullTelemetry !! 180))).
Proof.
  apply (RecordEndpointLatency_newest sampleNew sampleLatency fullTelemetry 185 0 10 180).
  - simpl. lia.
  - reflexivity.
  - intros j Hj. simpl in Hj. rewrite dom_singleton_L in Hj.
    apply elem_of_singleton in Hj. lia.
Defined.

Lemma RecordEndpointLatency_stale_witness :
  exists t',
    RecordEndpointLatency sampleNew sampleLatency fullTelemetry 5 0 10 = Some t' /\
    telemetryByTimeSlice t' = telemetryByTimeSlice fullTelemetry.
Proof.
  apply (RecordEndpointLatency_stale sampleNew sampleLatency fullTelemetry 5 0 10 0).
  - reflexivity.
  - reflexivity.
  - intros j Hj. simpl in Hj. rewrite dom_singleton_L in Hj.
    apply elem_of_singleton in Hj. lia.
Defined.

End TimesliceRetention.

(** ** Stats storage: what accumulates *)

Module StatsInvariants.

Import Stats.

Lemma wrap64_add_l (x y : Z) : wrap64 (wrap64 x + y) = wrap64 (x + y).
Proof.
  unfold wrap64. f_equal.
  replace ((x + 2 ^ 63) mod 2 ^ 64 - 2 ^ 63 + y + 2 ^ 63)
    with ((x + 2 ^ 63) mod 2 ^ 64 + y) by lia.
  rewrite Zplus_mod_idemp_l. f_equal. lia.
Qed.

Lemma wrap64_add_r (x y : Z) : wrap64 (x + wrap64 y) = wrap64 (x + y).
Proof. rewrite (Z.add_comm x), wrap64_add_l. f_equal. lia. Qed.




(** Saving two values to a counter one after the other leaves the storage
    as saving their (wrapped) sum at once does: the counter holds the
    wrapped sum of all that was saved. *)
Theorem SaveCounter_twice (s : Storage) (name : string) (v1 v2 : Z) :
  initialized s ->
  exists s1 s2 counters,
    countersStorage s = Some counters /\
    SaveCounter s name v1 = Some (None, s1) /\
    SaveCounter s1 name v2 = Some (None, s2) /\
    SaveCounter s name (wrap64 (v1 + v2)) = Some (None, s2) /\
    Counters s2 ≫= (.!! name) = Some (wrap64 (default 0 (counters !! name) + v1 + v2)).
Proof.
  intros (Hflag & [counters Hc] & _)%initialized_storages.
  unfold SaveCounter. rewrite Hflag, Hc. simpl.
  eexists _, _, counters. split; [done|]. split; [done|].
  split; [done|].
  unfold CounterStorage_Add. rewrite lookup_insert_eq, insert_insert_eq. simpl.
  rewrite wrap64_add_l, <- Z.add_assoc, wrap64_add_r, Z.add_assoc.
  split; [done|]. unfold Counters. simpl. by rewrite lookup_insert_eq.
Qed.

Lemma SaveCounter_twice_witness :
  exists s1 s2 counters,
    countersStorage (Initialize start) = Some counters /\
    SaveCounter (Initialize start) "requests" (2 ^ 63 - 1) = Some (None, s1) /\
    SaveCounter s1 "requests" 1 = Some (None, s2) /\
    SaveCounter (Initialize start) "requests" (wrap64 (2 ^ 63 - 1 + 1)) = Some (None, s2) /\
    Counters s2 ≫= (.!! "requests")
    = Some (wrap64 (default 0 (counters !! "requests") + (2 ^ 63 - 1) + 1)).
Proof.
  apply (SaveCounter_twice (Initialize start) "requests" (2 ^ 63 - 1) 1).
  apply initialized_Initialize.
Defined.

Example counter_wraps :
  (s1 ← SaveCounter (Initialize start) "requests" (2 ^ 63 - 1);
   s2 ← SaveCounter s1.2 "requests" 1;
   Counters s2.2 ≫= (.!! "requests")) = Some (- 2 ^ 63).
Proof. vm_compute. reflexivity. Qed.

End StatsInvariants.

(** ** Posting metrics ([api/post.go]) *)

Module ApiMetrics.

Import GoStd Api.

(** [postMetrics]. *)
Definition postMetrics (eventsClient : Client) (send : Request -> option error)
    (url data sdkVersion machineIP : string) : Request * option error :=
  let _client := eventsClient in
  let _client := ResetHeaders _client in
  let _client := AddHeader _client "SplitSDKVersion" sdkVersion in
  let _client := AddHeader _client "SplitSDKMachineIP" machineIP in
  let _client :=
    AddHeader _client "SplitSDKMachineName"
      (Sprintf_ip (strings_Replace machineIP "." "-" (-1))) in
  let request := Post _client url data in
  match send request with
  | Some err => (request, Some err)
  | None => (request, None)
  end.

Definition PostMetricsLatency (eventsClient : Client) (send : Request -> option error)
    (data sdkVersion machineIP : string) : Request * option error :=
  let url := "/metrics/times" in
  postMetrics eventsClient send url data sdkVersion machineIP.

Definition PostMetricsCounters (eventsClient : Client) (send : Request -> option error)
    (data sdkVersion machineIP : string) : Request * option error :=
  let url := "/metrics/counters" in
  postMetrics eventsClient send url data sdkVersion machineIP.

Definition PostMetricsGauge (eventsClient : Client) (send : Request -> option error)
    (data sdkVersion machineIP : string) : Request * option error :=
  let url := "/metrics/gauge" in
  postMetrics eventsClient send url data sdkVersion machineIP.

Definition PostMetricsCount (eventsClient : Client) (send : Request -> option error)
    (data sdkVersion machineIP : string) : Request * option error :=
  let url := "/metrics/counter" in
  postMetrics eventsClient send url data sdkVersion machineIP.

Definition PostMetricsTime (eventsClient : Client) (send : Request -> option error)
    (data sdkVersion machineIP : string) : Request * option error :=
  let url := "/metrics/time" in
  postMetrics eventsClient send url data sdkVersion machineIP.

(** The bytes of a string. *)
Fixpoint bytesOf (s : string) : list ascii :=
  match s with
  | EmptyString => []
  | String c rest => c :: bytesOf rest
  end.

Lemma bytesOf_dashedIP (machineIP : string) :
  ("."%char ∉ bytesOf (dashedIP machineIP)) /\
  String.length (dashedIP machineIP) = String.length machineIP.
Proof.
  induction machineIP as [|c rest [IHdot IHlen]]; simpl.
  - split; [apply not_elem_of_nil | done].
  - split; [|by rewrite IHlen].
    apply not_elem_of_cons. split; [|done].
    destruct (Ascii.eqb_spec c "."%char); [done | congruence].
Qed.

Lemma request_of_send (request : Request) (send : Request -> option error) :
  (match send request with
   | Some err => (request, Some err)
   | None => (request, None)
   end) = (request, send request).
Proof. by destruct (send request). Qed.

(** The machine name [PostImpressions] sends is three bytes longer than
    the machine IP and has no dot in it. *)
Theorem PostImpressions_machine_name (eventsClient : Client)
    (send : Request -> option error) (data sdkVersion machineIP : string) :
  exists name,
    requestHeaders (PostImpressions eventsClient send data sdkVersion machineIP).1
      !! "SplitSDKMachineName" = Some name /\
    String.length name = (3 + String.length machineIP)%nat /\
    ("."%char ∉ bytesOf name).
Proof.
  unfold PostImpressions. rewrite request_of_send, strings_Replace_dots_dashes. simpl.
  rewrite lookup_insert_eq. eexists. split; [done|].
  destruct (bytesOf_dashedIP machineIP) as [Hdot Hlen].
  unfold Sprintf_ip. simpl.
  change ("" +:+ dashedIP machineIP) with (dashedIP machineIP).
  split; [by rewrite Hlen|].
  intros [Hd|[Hd|[Hd|Hd]%elem_of_cons]%elem_of_cons]%elem_of_cons; done.
Qed.

(** Each of the five metrics posts sends the given body to its own URL
    with the headers [PostImpressions] sends for the same SDK version
    and machine IP, and with nothing of what the shared client carried
    before; and it returns what the events service answered. *)
Theorem PostMetrics_requests (eventsClient : Client)
    (send : Request -> option error) (data sdkVersion machineIP : string) :
  let expected url :=
    ({| requestURL := url;
        requestHeaders :=
          requestHeaders
            (PostImpressions {| clientHeaders := ∅ |} send data sdkVersion machineIP).1;
        requestBody := data |}) in
  PostMetricsLatency eventsClient send data sdkVersion machineIP
    = (expected "/metrics/times", send (expected "/metrics/times")) /\
  PostMetricsCounters eventsClient send data sdkVersion machineIP
    = (expected "/metrics/counters", send (expected "/metrics/counters")) /\
  PostMetricsGauge eventsClient send data sdkVersion machineIP
    = (expected "/metrics/gauge", send (expected "/metrics/gauge")) /\
  PostMetricsCount eventsClient send data sdkVersion machineIP
    = (expected "/metrics/counter", send (expected "/metrics/counter")) /\
  PostMetricsTime eventsClient send data sdkVersion machineIP
    = (expected "/metrics/time", send (expected "/metrics/time")).
Proof.
  unfold PostMetricsLatency, PostMetricsCounters, PostMetricsGauge, PostMetricsCount,
    PostMetricsTime, postMetrics, PostImpressions.
  rewrite !request_of_send. done.
Qed.

End ApiMetrics.

(** ** The events post task: nothing kept is lost *)

Module EventsConservation.

Import EventsTask.

Section Conservation.

Context {EventDTO : Type}.

Abbreviation stored := (@StoredEvent EventDTO).

Lemma posts_spec (storedEvents : list stored) (bulk : list EventDTO)
    (triple : string * string * string) :
  (bulk, triple) ∈ taskPostEvents (inr storedEvents) <->
  bulk <> [] /\ bulk = eventsOf triple storedEvents.
Proof.
  destruct triple as [[s i] n]. simpl.
  rewrite elem_of_postAll, grouping_invariant.
  destruct (eventsOf (s, i, n) storedEvents) as [|ev evs].
  - split; [done | by intros [Hne ->]].
  - split; [by intros [= <-] | by intros [_ ->]].
Qed.

Lemma posts_triples_NoDup (storedEvents : list stored) :
  NoDup (taskPostEvents (inr storedEvents)).*2.
Proof.
  apply NoDup_fmap_2_strong; [|apply NoDup_postAll].
  intros [b1 t1] [b2 t2] H1 H2 Heq. simpl in Heq. subst t2.
  apply (posts_spec storedEvents) in H1 as [_ ->].
  apply (posts_spec storedEvents) in H2 as [_ ->]. done.
Qed.

Lemma posts_bulks (storedEvents : list stored) :
  (taskPostEvents (inr storedEvents)).*1 =
  (fun triple => eventsOf triple storedEvents) <$> (taskPostEvents (inr storedEvents)).*2.
Proof.
  rewrite <- list_fmap_compose. apply list_fmap_ext.
  intros idx [bulk triple] Hin%list_elem_of_lookup_2. simpl.
  by apply (posts_spec storedEvents) in Hin as [_ ->].
Qed.

Lemma eventsOf_cons (triple : string * string * string) (x : stored)
    (storedEvents : list stored) :
  eventsOf triple (x :: storedEvents) =
  (if decide (kept x /\ identity x = triple) then [Event x] else [])
  ++ eventsOf triple storedEvents.
Proof. unfold eventsOf. rewrite filter_cons. by case_decide. Qed.

Lemma eventsOf_cons_others (x : stored) (storedEvents : list stored)
    (triples : list (string * string * string)) :
  (kept x -> identity x ∉ triples) ->
  (fun triple => eventsOf triple (x :: storedEvents)) <$> triples =
  (fun triple => eventsOf triple storedEvents) <$> triples.
Proof.
  intros Hout. apply list_fmap_ext. intros idx triple Hin%list_elem_of_lookup_2.
  rewrite eventsOf_cons, decide_False; [done|].
  intros [Hk Hid]. apply (Hout Hk). by rewrite Hid.
Qed.

(** The bulks of any duplicate-free list of triples that covers the kept
    events hold, together, the kept events. *)
Lemma bulks_partition (storedEvents : list stored)
    (triples : list (string * string * string)) :
  NoDup triples ->
  (forall x, x ∈ storedEvents -> kept x -> identity x ∈ triples) ->
  mjoin ((fun triple => eventsOf triple storedEvents) <$> triples)
  ≡ₚ Event <$> filter kept storedEvents.
Proof.
  intros Hnd. induction storedEvents as [|x storedEvents IH]; intros Hcover.
  - simpl. clear. induction triples as [|t ts IH]; [done|]. simpl. by rewrite IH.
  - assert (Hrest : forall y, y ∈ storedEvents -> kept y -> identity y ∈ triples)
      by (intros y Hy; apply Hcover; by right).
    specialize (IH Hrest). rewrite filter_cons.
    destruct (decide (kept x)) as [Hk|Hk].
    + pose proof (Hcover x ltac:(by left) Hk) as Hin.
      apply list_elem_of_split in Hin as (before & after & Heq).
      rewrite Heq in Hnd, IH |- *.
      apply NoDup_app in Hnd as (_ & Hdisj & Hnd2).
      apply NoDup_cons in Hnd2 as [Hafter _].
      rewrite !fmap_app, !fmap_cons, !join_app in IH |- *. simpl in *.
      rewrite (eventsOf_cons_others x storedEvents before)
        by (intros _ Hb; by apply (Hdisj _ Hb), list_elem_of_here).
      rewrite (eventsOf_cons_others x storedEvents after) by done.
      rewrite eventsOf_cons, decide_True by done. simpl.
      rewrite <- IH. by rewrite <- Permutation_middle.
    + rewrite eventsOf_cons_others by done. done.
Qed.

Lemma posts_conserve (storedEvents : list stored) :
  mjoin (taskPostEvents (inr storedEvents)).*1
  ≡ₚ Event <$> filter kept storedEvents.
Proof.
  rewrite posts_bulks. apply bulks_partition; [apply posts_triples_NoDup|].
  intros x Hin Hk. apply list_elem_of_fmap.
  exists (eventsOf (identity x) storedEvents, identity x). split; [done|].
  apply posts_spec. split; [|done].
  intros Hnil.
  assert (Hev : Event x ∈ eventsOf (identity x) storedEvents).
  { unfold eventsOf. apply list_elem_of_fmap. exists x. split; [done|].
    by apply list_elem_of_filter. }
  rewrite Hnil in Hev. by apply elem_of_nil in Hev.
Qed.

(** The bulks the task posts hold, together, exactly the kept events of
    the batch: none is lost and none is posted twice. *)
Theorem taskPostEvents_conserves (storedEvents : list stored) :
  mjoin (taskPostEvents (inr storedEvents)).*1
  ≡ₚ Event <$> filter kept storedEvents.
Proof. apply posts_conserve. Qed.

(** The task makes no POST exactly when the batch has no kept event:
    when it is empty, or when every event lacks its SDK version or its
    machine IP. *)
Theorem taskPostEvents_nothing (storedEvents : list stored) :
  taskPostEvents (inr storedEvents) = [] <-> filter kept storedEvents = [].
Proof.
  split.
  - intros Hnone. pose proof (posts_conserve storedEvents) as Hperm.
    rewrite Hnone in Hperm. simpl in Hperm.
    apply Permutation_nil_l in Hperm. symmetry in Hperm.
    by apply fmap_nil_inv in Hperm.
  - intros Hnone.
    destruct (taskPostEvents (inr storedEvents)) as [|[bulk triple] rest] eqn:Hposts;
      [done|].
    assert (Hin : (bulk, triple) ∈ taskPostEvents (inr storedEvents))
      by (rewrite Hposts; by left).
    apply posts_spec in Hin as [Hne ->]. exfalso. apply Hne.
    unfold eventsOf.
    assert (Hsub : filter (fun x : stored => kept x /\ identity x = triple) storedEvents
                   = []).
    { clear Hposts Hne. induction storedEvents as [|y ys IH]; [done|].
      rewrite filter_cons in Hnone |- *.
      destruct (decide (kept y)) as [Hk|Hk]; [done|].
      rewrite decide_False by tauto. by apply IH. }
    by rewrite Hsub.
Qed.

End Conservation.

End EventsConservation.

(** ** The impressions recorder: one synchronization, and an idle flush *)

Module ImpressionSync.

Import ImpressionWorker.

Section Sync.

Context {StoredImpression ImpressionsDTO ImpressionsListener Queue Manager : Type}.
Variable Count : Queue -> Z.
Variable PopNWithMetadata :
  Z -> Queue -> error + (list StoredImpression * Queue).
Variable collect :
  Manager -> list StoredImpression ->
  Manager * list (Metadata * list ImpressionsDTO)
          * list (Metadata * list ImpressionsListener).
Variable upstream : nat -> list ImpressionsDTO -> Metadata -> option error.
Variable impressionListenerEnabled : bool.
Variable producerMode : bool.
Variables MaxSizeToFlush DefaultSize : Z.
Variable json_Marshal : list ImpressionsListener -> error + string.
Variable listenerRefuses : list ImpressionBulk -> ImpressionBulk -> option error.

Abbreviation world := (@World ImpressionsDTO Queue Manager).





(** A flush with nothing to flush (a non-positive number of elements, or
    an empty storage) ends at once, for any number of turns: it returns
    [nil], pops and posts nothing, and leaves the operation released. *)
Theorem FlushImpressions_idle (fuel : nat) (bulkSize : Z) (w : world) :
  IsOperationRunning (running w) ImpressionsOperation = false ->
  (if bulkSize =? 0 then MaxSizeToFlush else bulkSize) <= 0
  \/ Count (impressionStorage w) <= 0 ->
  exists w',
    FlushImpressions Count PopNWithMetadata collect upstream impressionListenerEnabled
      producerMode MaxSizeToFlush DefaultSize json_Marshal listenerRefuses
      fuel bulkSize w = Some (None, w') /\
    impressionStorage w' = impressionStorage w /\
    recordCalls w' = recordCalls w /\
    localTelemetry w' = localTelemetry w /\
    listenerQueue w' = listenerQueue w /\
    IsOperationRunning (running w') ImpressionsOperation = false.
Proof.
  unfold IsOperationRunning. intros Hfree Hidle.
  unfold FlushImpressions, RequestOperation. rewrite Hfree.
  set (elements := if bulkSize =? 0 then MaxSizeToFlush else bulkSize) in *.
  assert (Hcond : (0 <? elements) && (0 <? Count (impressionStorage w)) = false).
  { apply andb_false_iff.
    destruct Hidle; [left | right]; by apply Z.ltb_ge. }
  destruct fuel as [|fuel]; cbn [flushLoop]; simpl; rewrite Hcond; simpl;
    (eexists; split; [done|]); simpl; unfold FinishOperation;
    by rewrite decide_True.
Qed.

End Sync.

Lemma FlushImpressions_idle_witness :
  exists w',
    FlushImpressions sampleCount samplePop sampleCollect failingUpstream true false
      25000 5000 sampleMarshal sampleRefuses 0 0 (sampleWorld false [])
    = Some (None, w') /\
    impressionStorage w' = impressionStorage (sampleWorld false []) /\
    recordCalls w' = recordCalls (sampleWorld false []) /\
    localTelemetry w' = localTelemetry (sampleWorld false []) /\
    listenerQueue w' = listenerQueue (sampleWorld false []) /\
    IsOperationRunning (running w') ImpressionsOperation = false.
Proof.
  apply (FlushImpressions_idle sampleCount samplePop sampleCollect failingUpstream
           true false 25000 5000 sampleMarshal sampleRefuses 0%nat 0
           (sampleWorld false [])).
  - reflexivity.
  - right. unfold sampleCount. simpl. lia.
Defined.

(** Four batches for the listener: the second does not encode and the
    fourth finds the queue full; both are logged and passed over. *)
Example sendDataToListener_sample :
  let w :=
    sendDataToListener sampleMarshal sampleRefuses
      [(sampleMetadata, [1]); (sampleMetadata, []); (sampleMetadata, [2]);
       (sampleMetadata, [3])]
      (sampleWorld false []) in
  length (listenerQueue w) = 2%nat /\
  errorsLogged w = ["JSON encoding failed for the following impressions";
                    "Error queueing impressions for the listener"].
Proof. vm_compute. done. Qed.

End ImpressionSync.

(** ** The SDK server controller: reads and their effects *)

Module SdkReads.

Import GoStd ProxyStorage SdkController SinceParameter.



(** What [MySegments] writes and counts. *)
Inductive MySegmentsWrite : Type :=
  | EmptyBody (status : Z)
  | MySegmentsBody (status : Z) (mySegments : list string).

Section Reads.

Variables SplitChangesEndpoint SegmentChangesEndpoint MySegmentsEndpoint : Z.
Variable BuildArchivedSplitsFor : gmap string string -> list SplitDTO.
Variable Fetch : Z -> bool -> error + SplitChangesDTO.

(** [c.proxySegmentStorage.SegmentsFor(key)]: the list and the error it
    returns. *)
Variable SegmentsFor : string -> list string * option error.

(** [MySegments]: the bodies written to the response and the statuses
    recorded in the telemetry, in order.  After an error the handler
    writes the 500 and goes on. *)
Definition MySegments (key : string) : list MySegmentsWrite * list (Z * Z) :=
  let '(segmentList, err) := SegmentsFor key in
  let '(written, statuses) :=
    match err with
    | Some _ =>
        ([EmptyBody StatusInternalServerError],
         [(MySegmentsEndpoint, StatusInternalServerError)])
    | None => ([], [])
    end in
  let mySegments :=
    fold_left (fun mySegments segmentName => mySegments ++ [segmentName]) segmentList [] in
  (written ++ [MySegmentsBody StatusOK mySegments],
   statuses ++ [(MySegmentsEndpoint, StatusOK)]).

Lemma collect_names (names acc : list string) :
  fold_left (fun mySegments segmentName => mySegments ++ [segmentName]) names acc
  = acc ++ names.
Proof.
  revert acc. induction names as [|name names IH]; intros acc; simpl.
  - by rewrite app_nil_r.
  - by rewrite IH, <- app_assoc.
Qed.

(** When [SegmentsFor] fails, [MySegments] writes an empty 500 body and
    counts a 500, and then, the error branch not returning, writes the
    200 body with the names [SegmentsFor] returned, in their order, and
    counts a 200.  When it succeeds the 200 body and the 200 status are
    all there is. *)
Theorem MySegments_always_answers_ok (key : string) :
  match (SegmentsFor key).2 with
  | Some _ =>
      MySegments key =
        ([EmptyBody StatusInternalServerError;
          MySegmentsBody StatusOK (SegmentsFor key).1],
         [(MySegmentsEndpoint, StatusInternalServerError);
          (MySegmentsEndpoint, StatusOK)])
  | None =>
      MySegments key =
        ([MySegmentsBody StatusOK (SegmentsFor key).1],
         [(MySegmentsEndpoint, StatusOK)])
  end.
Proof.
  unfold MySegments. destruct (SegmentsFor key) as [segmentList [err|]];
    rewrite collect_names; reflexivity.
Qed.


(** A [/splitChanges] request without a usable [since] is answered with
    status 200 and the whole snapshot, [since] [-1] and the change
    number of the snapshot as [till], without going upstream and
    without touching the storage. *)
Theorem SplitChanges_without_since (p : ProxySplitStorageImpl)
    (sinceQuery : option string) :
  unparseable sinceQuery ->
  SplitChanges SplitChangesEndpoint BuildArchivedSplitsFor Fetch
    (SegmentChangesDTO := unit) p sinceQuery =
  Some (SplitChangesBody StatusOK
          {| Since := -1; Till := till (snapshot p);
             Splits := snapshot_All (snapshot p) |},
        {| storage := p;
           upstreamFetches := [];
           endpointStatuses := [(SplitChangesEndpoint, StatusOK)] |}).
Proof.
  intros Hq. unfold SplitChanges. rewrite (sdk_sinceOf_unparseable _ Hq).
  reflexivity.
Qed.

End Reads.

(** An upstream that is down. *)
Definition failingFetch (since : Z) (cacheControl : bool) : error + SplitChangesDTO :=
  inl (HTTPError 503).



Example fetchSplitChangesSince_upstream_down :
  fetchSplitChangesSince sampleTombstones failingFetch sampleStorage 1
  = Some (inl (Wrapped "unexpected error fetching split changes from storage"
                 (HTTPError 503)),
          {| storage := sampleStorage;
             upstreamFetches := [(1, true)];
             endpointStatuses := [] |}).
Proof. vm_compute. reflexivity. Qed.

Lemma SplitChanges_without_since_witness :
  SplitChanges 1 sampleTombstones sampleFetch (SegmentChangesDTO := unit)
    sampleStorage (Some "") =
  Some (SplitChangesBody StatusOK
          {| Since := -1; Till := till (snapshot sampleStorage);
             Splits := snapshot_All (snapshot sampleStorage) |},
        {| storage := sampleStorage;
           upstreamFetches := [];
           endpointStatuses := [(1, StatusOK)] |}).
Proof.
  apply (SplitChanges_without_since 1 sampleTombstones sampleFetch sampleStorage (Some "")).
  right. exists "", ErrSyntax. split; reflexivity.
Defined.

Example MySegments_failure :
  MySegments 3 (fun _ => (["employees"], Some (ErrOther "storage down"))) "user-1"
  = ([EmptyBody 500; MySegmentsBody 200 ["employees"]], [(3, 500); (3, 200)]).
Proof. reflexivity. Qed.

End SdkReads.
